(** * Kanban board prototypes: board store and drag reorder engine

    The repository holds three near-duplicate React prototypes of one
    kanban board.  Each keeps a [board] object in component state and
    replaces it wholesale from four handlers: [saveTask] / [addTask],
    [deleteTask] and [handleDragEnd].  This development embeds the three
    sets of handlers side by side:

    - [TaskMaster]      : prototypes/taskmaster/src/App.jsx (modal edition)
    - [TaskDragMaster]  : prototypes/taskdragmaster/src/App.jsx (simplified)
    - [BoardV2]         : the calendar / dark-mode edition (storage key
                          tdm:board:v2), whose tasks record their column
                          in a [status] field.

    Collaborators outside the repository are parameters of the handlers:
    [uuidv4()] is the argument [uuid], each call of [nowIso()] is one
    string argument, [confirm(..)] is a boolean, [localStorage.getItem]
    is an [option string] and [JSON.parse] is a section variable. *)

From Stdlib Require Import ZArith Lia.
From stdpp Require Import base option list strings gmap.

Local Open Scope string_scope.
Local Open Scope list_scope.
Local Open Scope nat_scope.

(** ** JavaScript primitives used by the handlers *)

Module Js.

(** [a || d] where [a] is a string or [undefined]: the empty string and
    [undefined] are falsy. *)
Definition or_else (a : option string) (d : string) : string :=
  match a with
  | Some s => if decide (s = EmptyString) then d else s
  | None => d
  end.

(** [!!a] for a string or [undefined]. *)
Definition truthy (a : option string) : bool :=
  match a with
  | Some s => bool_decide (s ≠ EmptyString)
  | None => false
  end.

(** A computed property key: [o[undefined]] reads the property named
    "undefined". *)
Definition key (c : option string) : string := default "undefined" c.

(** [l.indexOf(x)]: position of the first occurrence, [-1] if none. *)
Fixpoint indexOf (x : string) (l : list string) : Z :=
  match l with
  | [] => (-1)%Z
  | y :: l' =>
      if decide (y = x) then 0%Z
      else let i := indexOf x l' in
           if decide (i = (-1)%Z) then (-1)%Z else (i + 1)%Z
  end.

(** [l.includes(x)]. *)
Definition includes (x : string) (l : list string) : bool :=
  bool_decide (x ∈ l).

(** [l.splice(start, deleteCount, ...items)], the array after the call.
    A negative [start] counts from the end; both ends are clamped. *)
Definition splice {A} (start : Z) (deleteCount : nat) (items l : list A)
  : list A :=
  let len := Z.of_nat (length l) in
  let s := Z.to_nat (if (start <? 0)%Z then Z.max (len + start) 0
                     else Z.min start len) in
  (take s l ++ items ++ drop (s + deleteCount) l)%list.

(** The array after [l.push(x)]. *)
Definition push {A} (x : A) (l : list A) : list A := (l ++ [x])%list.

(** [l.filter(x => x !== id)]. *)
Definition without (id : string) (l : list string) : list string :=
  filter (λ x, x ≠ id) l.

(** An object with string keys, in insertion order ([Object.keys]
    enumerates it in this order).  Keys are assumed not to be
    integer-like and not to name a property of [Object.prototype]. *)
Definition obj (V : Type) : Type := list (string * V).

(** [o[k]]. *)
Fixpoint get {V} (k : string) (o : obj V) : option V :=
  match o with
  | [] => None
  | (k', v) :: o' => if decide (k = k') then Some v else get k o'
  end.

(** [{...o, [k]: v}]: an existing key keeps its place, a new key goes
    last. *)
Fixpoint set {V} (k : string) (v : V) (o : obj V) : obj V :=
  match o with
  | [] => [(k, v)]
  | (k', v') :: o' =>
      if decide (k = k') then (k, v) :: o' else (k', v') :: set k v o'
  end.

(** [Object.keys(o)]. *)
Definition keys {V} (o : obj V) : list string := o.*1.

(** [s.includes(q)] on strings: [q] occurs somewhere in [s]. *)
Definition contains (q s : string) : bool :=
  if String.index 0 q s is Some _ then true else false.

End Js.

(** ** The board *)

Record Column := mkColumn { colId : string; colName : string }.

(** [T] is the shape of a task record, which differs between prototypes. *)
Record Board (T : Type) := mkBoard {
  boardId : string;
  boardName : string;
  columns : list Column;
  tasks : gmap string T;
  order : Js.obj (list string);
  ts : string;
}.
Arguments mkBoard {T}.
Arguments boardId {T}.
Arguments boardName {T}.
Arguments columns {T}.
Arguments tasks {T}.
Arguments order {T}.
Arguments ts {T}.

(** [{...board, tasks, order, ts}]. *)
Definition withState {T} (board : Board T) (tk : gmap string T)
    (ord : Js.obj (list string)) (now : string) : Board T :=
  mkBoard (boardId board) (boardName board) (columns board) tk ord now.

(** The cards each column renders.  All three prototypes build this map
    with the same two loops: first [map[col.id] = []] for every column,
    then, column by column, every id of [board.order[col.id] || []] whose
    record exists (and, in the calendar edition, passes the filters:
    [shown]) is pushed onto [map[col.id]]. *)
Definition cardsByColumn {T} (shown : T → bool) (board : Board T)
  : Js.obj (list T) :=
  let map0 :=
    foldl (λ map col, Js.set (colId col) [] map) [] (columns board) in
  foldl (λ map col,
           foldl (λ map id,
                    match tasks board !! id with
                    | Some t =>
                        if shown t
                        then Js.set (colId col)
                               (Js.push t (default [] (Js.get (colId col) map)))
                               map
                        else map
                    | None => map
                    end)
                 map (default [] (Js.get (colId col) (order board))))
        map0 (columns board).

(** *** The data-model invariant of the specification *)

(** Number of occurrences of [id] across all [order[*]] lists. *)
Definition occurrences (id : string) (o : Js.obj (list string)) : nat :=
  sum_list ((λ kv, length (filter (λ x, x = id) kv.2)) <$> o).

(** Every task id appears exactly once across the order lists, and in the
    list of the column its record names ([col] reads the column field). *)
Definition board_inv {T} (col : T → option string) (b : Board T) : Prop :=
  ∀ id t, tasks b !! id = Some t →
    occurrences id (order b) = 1 ∧
    ∃ c l, col t = Some c ∧ Js.get c (order b) = Some l ∧ id ∈ l.

(** The same, as a check that can be run on a board. *)
Definition task_ok {T} (col : T → option string) (o : Js.obj (list string))
    (id : string) (t : T) : bool :=
  bool_decide (occurrences id o = 1) &&
  match col t with
  | Some c => match Js.get c o with
              | Some l => bool_decide (id ∈ l)
              | None => false
              end
  | None => false
  end.

Definition board_ok {T} (col : T → option string) (b : Board T) : bool :=
  forallb (λ kv, task_ok col (order b) kv.1 kv.2) (map_to_list (tasks b)).

(** ** Startup: load the stored board or fall back to an empty one *)

Section Startup.
(** Parsed JSON values, [JSON.parse] ([None] when it throws) and
    JavaScript truthiness of a parsed value. *)
Variable JSValue : Type.
Variable JSON_parse : string → option JSValue.
Variable truthy : JSValue → bool.

(** [loadStore] / [loadBoard]: [null] for a missing or empty entry and
    for a payload that does not parse. *)
Definition loadStore (stored : option string) : option JSValue :=
  match stored with
  | None => None
  | Some raw => if decide (raw = EmptyString) then None else JSON_parse raw
  end.

(** The calendar edition calls the same function [loadBoard] (and keeps
    the storage read inside the [try]). *)
Definition loadBoard : option string → option JSValue := loadStore.

(** What [useState(() => loadStore() || emptyBoard())] starts from:
    the stored value as it is, or a fresh board. *)
Inductive Initial (B : Type) :=
| Stored (v : JSValue)
| Fresh (b : B).

Definition initialBoard {B} (emptyBoard : B) (stored : option string)
  : Initial B :=
  match loadStore stored with
  | Some v => if truthy v then Stored B v else Fresh B emptyBoard
  | None => Fresh B emptyBoard
  end.
End Startup.
Arguments Stored {JSValue B}.
Arguments Fresh {JSValue B}.

(** ** The calendar edition (storage key tdm:board:v2) *)

Module BoardV2.

(** A task object.  A field that is absent or [undefined] is [None]. *)
Record Task := mkTask {
  taskId : option string;
  title : option string;
  description : option string;
  priority : option string;
  due : option string;
  tag : option string;
  status : option string;
  createdAt : option string;
  updatedAt : option string;
}.

(** The empty object [{}]. *)
Definition noTask : Task :=
  mkTask None None None None None None None None None.

(** [{...a, ...b}]: the fields of [b] win where [b] has them. *)
Definition spread (a b : Task) : Task :=
  mkTask (taskId b ∪ taskId a) (title b ∪ title a)
         (description b ∪ description a) (priority b ∪ priority a)
         (due b ∪ due a) (tag b ∪ tag a) (status b ∪ status a)
         (createdAt b ∪ createdAt a) (updatedAt b ∪ updatedAt a).

(** [{...t, id, updatedAt, createdAt, status}]. *)
Definition stamped (t : Task) (i upd crt st : string) : Task :=
  mkTask (Some i) (title t) (description t) (priority t) (due t) (tag t)
         (Some st) (Some crt) (Some upd).

(** [{...t, status: destCol, updatedAt: now}]. *)
Definition moved (t : Task) (destCol : option string) (now : string) : Task :=
  mkTask (taskId t) (title t) (description t) (priority t) (due t) (tag t)
         destCol (createdAt t) (Some now).

Definition DEFAULT_COLUMNS : list Column :=
  [ mkColumn "todo" "To Do"; mkColumn "inprogress" "In Progress";
    mkColumn "done" "Done" ].

(** [emptyBoard]: [cols.forEach(c => order[c.id] = [])]. *)
Definition emptyBoard (now : string) : Board Task :=
  let cols := DEFAULT_COLUMNS in
  let order := foldl (λ o c, Js.set (colId c) [] o) [] cols in
  mkBoard "main" "Board" cols ∅ order now.

(** [saveTask(taskPartial)].  [uuid] is the value [uuidv4()] would
    return; [nowU], [nowC], [nowT] are the clock readings for
    [updatedAt], [createdAt] and [ts]. *)
Definition saveTask (uuid nowU nowC nowT : string) (taskPartial : Task)
    (board : Board Task) : Board Task :=
  let isEdit :=
    match taskId taskPartial with
    | Some i => Js.truthy (Some i) && bool_decide (is_Some (tasks board !! i))
    | None => false
    end in
  let id := Js.or_else (taskId taskPartial) uuid in
  let old := tasks board !! id in
  let task :=
    stamped (spread (default noTask old) taskPartial) id nowU
      (Js.or_else (old ≫= createdAt) nowC)
      (Js.or_else (status taskPartial)
                  (Js.or_else (old ≫= status) "todo")) in
  let nextTasks := <[id := task]> (tasks board) in
  if isEdit then withState board nextTasks (order board) nowT
  else withState board nextTasks
         (Js.set "todo" (id :: default [] (Js.get "todo" (order board)))
                 (order board)) nowT.

(** [Object.keys(newOrder).forEach(k => newOrder[k] =
    newOrder[k].filter(x => x !== id))]. *)
Definition filterAll (id : string) (o : Js.obj (list string))
  : Js.obj (list string) :=
  foldl (λ acc k, match Js.get k acc with
                  | Some l => Js.set k (Js.without id l) acc
                  | None => acc
                  end) o (Js.keys o).

(** [deleteTask(id)]; [confirmed] is the answer of the confirm dialog. *)
Definition deleteTask (confirmed : bool) (now : string) (id : string)
    (board : Board Task) : Board Task :=
  if negb confirmed then board
  else match tasks board !! id with
       | None => board
       | Some _ =>
           withState board (delete id (tasks board))
                     (filterAll id (order board)) now
       end.

(** The column whose order list holds the dragged card:
    [Object.keys(board.order).find(col => (board.order[col]||[])
    .includes(activeId))]. *)
Definition sourceColumn (activeId : string) (o : Js.obj (list string))
  : option string :=
  List.find (λ col, Js.includes activeId (default [] (Js.get col o)))
            (Js.keys o).

(** The destination column of a drop on [overId]. *)
Definition destColumn (board : Board Task) (sourceCol : option string)
    (overId : string) : option string :=
  if bool_decide (is_Some (Js.get overId (order board))) then Some overId
  else match tasks board !! overId with
       | Some t => status t
       | None => sourceCol
       end.

(** [handleDragEnd(e)]: [over] is [e.over.id], [None] for a cancelled
    drop; [nowU] and [nowT] are the clock readings for [updatedAt] and
    [ts]. *)
Definition handleDragEnd (nowU nowT : string) (activeId : string)
    (over : option string) (board : Board Task) : Board Task :=
  match over with
  | None => board
  | Some overId =>
      let sourceCol := sourceColumn activeId (order board) in
      let destCol := destColumn board sourceCol overId in
      let sourceList := default [] (Js.get (Js.key sourceCol) (order board)) in
      let sourceOrder := Js.without activeId sourceList in
      let destOrder0 := default [] (Js.get (Js.key destCol) (order board)) in
      let overIsTask := bool_decide (is_Some (tasks board !! overId)) in
      let destOrder :=
        if bool_decide (sourceCol = destCol) && overIsTask then
          let oldIndex := Js.indexOf activeId sourceList in
          let newIndex := Js.indexOf overId destOrder0 in
          Js.splice newIndex 0 [activeId] (Js.splice oldIndex 1 [] destOrder0)
        else if overIsTask then
          let idx := Js.indexOf overId destOrder0 in
          if decide (idx = (-1)%Z) then Js.push activeId destOrder0
          else Js.splice idx 0 [activeId] destOrder0
        else Js.push activeId destOrder0 in
      let updatedTasks :=
        <[activeId := moved (default noTask (tasks board !! activeId))
                            destCol nowU]> (tasks board) in
      withState board updatedTasks
        (Js.set (Js.key destCol) destOrder
           (Js.set (Js.key sourceCol) sourceOrder (order board)))
        nowT
  end.

(** The entry points as requests, each with the answers of the
    collaborators it consults. *)
Inductive Request :=
| Save (uuid nowU nowC nowT : string) (taskPartial : Task)
| Delete (confirmed : bool) (now id : string)
| DragEnd (nowU nowT activeId : string) (over : option string).

Definition apply (r : Request) (board : Board Task) : Board Task :=
  match r with
  | Save uuid nowU nowC nowT p => saveTask uuid nowU nowC nowT p board
  | Delete confirmed now id => deleteTask confirmed now id board
  | DragEnd nowU nowT a over => handleDragEnd nowU nowT a over board
  end.

(** Events are applied one after the other, each to the snapshot the
    previous one produced. *)
Definition run (rs : list Request) (board : Board Task) : Board Task :=
  foldl (λ b r, apply r b) board rs.

#[global] Instance Task_eq_dec : EqDecision Task.
Proof. solve_decision. Defined.

(** The search box and the tag filter.  [trim] and [toLowerCase] are the
    string methods of those names. *)
Section Filters.
Variable trim : string → string.
Variable toLowerCase : string → string.

(** The predicate of [filteredTasks]; [q] is the trimmed, lower-cased
    query. *)
Definition matches (filterTag q : string) (t : Task) : bool :=
  if Js.truthy (Some filterTag) && bool_decide (tag t ≠ Some filterTag)
  then false
  else if Js.truthy (Some q)
  then Js.contains q (toLowerCase (Js.or_else (title t) EmptyString))
       || Js.contains q (toLowerCase (Js.or_else (description t) EmptyString))
       || Js.contains q (toLowerCase (Js.or_else (tag t) EmptyString))
  else true.

(** [filteredTasks]: the records that pass.  The order of
    [Object.values] is not kept by the map; only membership is used. *)
Definition filteredTasks (query filterTag : string) (board : Board Task)
  : list Task :=
  filter (λ t, matches filterTag (toLowerCase (trim query)) t = true)
         (map_to_list (tasks board)).*2.

(** [tasksByCol]: the listed cards that have a record and are among
    [filteredTasks]. *)
Definition tasksByCol (query filterTag : string) (board : Board Task)
  : Js.obj (list Task) :=
  cardsByColumn
    (λ t, bool_decide (t ∈ filteredTasks query filterTag board)) board.
End Filters.

(** The submit handler of the task form ([TaskModal]); [toISOString] is
    [new Date(due).toISOString()]. *)
Section Modal.
Variable trim : string → string.
Variable toISOString : string → string.

Inductive Submit :=
| Alert (message : string)
| OnSave (task : Task).

Definition submit (initial : option Task)
    (title description priority due tag : string) : Submit :=
  if decide (trim title = EmptyString) then Alert "Title required"
  else OnSave
         (mkTask (initial ≫= taskId)
                 (Some (trim title)) (Some (trim description)) (Some priority)
                 (Some (if decide (due = EmptyString) then EmptyString
                        else toISOString due))
                 (Some (trim tag))
                 (Some (Js.or_else (initial ≫= status) "todo"))
                 None None).

(** The form wired to the store: [onSave={saveTask}]. *)
Definition submitAndSave (uuid nowU nowC nowT : string) (initial : option Task)
    (title description priority due tag : string) (board : Board Task)
  : Board Task :=
  match submit initial title description priority due tag with
  | Alert _ => board
  | OnSave t => saveTask uuid nowU nowC nowT t board
  end.
End Modal.

(** [tileContent({ date })], the calendar tile of one day; [day] is
    [format(date, "yyyy-MM-dd")].  The result is [None] for [null], or the
    cards whose titles are listed (at most three) and the count shown as
    "+N more", if any.  The order of [Object.values] is not kept by the
    map, so which three cards come first is not modelled. *)
Definition tileContent (day : string) (board : Board Task)
  : option (list Task * option nat) :=
  let dayTasks :=
    filter (λ t, Js.truthy (due t) = true ∧
                 String.prefix day (Js.or_else (due t) EmptyString) = true)
           (map_to_list (tasks board)).*2 in
  if decide (length dayTasks = 0) then None
  else Some (take 3 dayTasks,
             if decide (3 < length dayTasks) then Some (length dayTasks - 3)
             else None).

End BoardV2.

(** ** The modal edition (prototypes/taskmaster) *)

Module TaskMaster.

(** A task object.  A field that is absent or [undefined] is [None]. *)
Record Task := mkTask {
  taskId : option string;
  title : option string;
  description : option string;
  priority : option string;
  due : option string;
  createdAt : option string;
  updatedAt : option string;
  columnId : option string;
}.

(** The empty object [{}]. *)
Definition noTask : Task := mkTask None None None None None None None None.

(** [{...a, ...b}]: the fields of [b] win where [b] has them. *)
Definition spread (a b : Task) : Task :=
  mkTask (taskId b ∪ taskId a) (title b ∪ title a)
         (description b ∪ description a) (priority b ∪ priority a)
         (due b ∪ due a) (createdAt b ∪ createdAt a)
         (updatedAt b ∪ updatedAt a) (columnId b ∪ columnId a).

(** [{...t, id, updatedAt, createdAt}]. *)
Definition stamped (t : Task) (i upd crt : string) : Task :=
  mkTask (Some i) (title t) (description t) (priority t) (due t)
         (Some crt) (Some upd) (columnId t).

(** [{...t, columnId: toColId, updatedAt: now}]. *)
Definition moved (t : Task) (toColId : option string) (now : string) : Task :=
  mkTask (taskId t) (title t) (description t) (priority t) (due t)
         (createdAt t) (Some now) toColId.

Definition DEFAULT_COLUMNS : list Column :=
  [ mkColumn "todo" "To do"; mkColumn "inprogress" "In progress";
    mkColumn "done" "Done" ].

Definition emptyBoard (now : string) : Board Task :=
  mkBoard "default" "My Board" DEFAULT_COLUMNS ∅
          [("todo", []); ("inprogress", []); ("done", [])] now.

(** [newTask(partial)]; [nowC] and [nowU] are the two clock readings. *)
Definition newTask (uuid nowC nowU : string) (partial : Task) : Task :=
  mkTask (Some uuid)
         (Some (Js.or_else (title partial) "New task"))
         (Some (Js.or_else (description partial) EmptyString))
         (Some (Js.or_else (priority partial) "medium"))
         (Some (Js.or_else (due partial) EmptyString))
         (Some nowC) (Some nowU)
         (Some (Js.or_else (columnId partial) "todo")).

(** [saveTask(taskPartial)]. *)
Definition saveTask (uuid nowU nowC nowT : string) (taskPartial : Task)
    (board : Board Task) : Board Task :=
  let isEdit :=
    match taskId taskPartial with
    | Some i => Js.truthy (Some i) && bool_decide (is_Some (tasks board !! i))
    | None => false
    end in
  let id := Js.or_else (taskId taskPartial) uuid in
  let old := tasks board !! id in
  let task :=
    stamped (spread (default noTask old) taskPartial) id nowU
            (Js.or_else (old ≫= createdAt) nowC) in
  let nextTasks := <[id := task]> (tasks board) in
  if isEdit then withState board nextTasks (order board) nowT
  else withState board nextTasks
         (Js.set "todo" (id :: default [] (Js.get "todo" (order board)))
                 (order board)) nowT.

(** The submit handler of the task form ([TaskModal]).  [trim] is
    [String.prototype.trim] and [toISOString] is
    [new Date(due).toISOString()]; the handler either shows an alert or
    hands a task to [onSave]. *)
Section Modal.
Variable trim : string → string.
Variable toISOString : string → string.

Inductive Submit :=
| Alert (message : string)
| OnSave (task : Task).

Definition submit (initial : option Task)
    (title description priority due : string) : Submit :=
  if decide (trim title = EmptyString) then Alert "Title is required"
  else OnSave
         (mkTask (if Js.truthy (initial ≫= taskId) then initial ≫= taskId
                  else None)
                 (Some (trim title)) (Some (trim description)) (Some priority)
                 (Some (if decide (due = EmptyString) then EmptyString
                        else toISOString due))
                 None None
                 (Some (Js.or_else (initial ≫= columnId) "todo"))).

(** The form wired to the store: [onSave={(t) => saveTask(t)}]. *)
Definition submitAndSave (uuid nowU nowC nowT : string) (initial : option Task)
    (title description priority due : string) (board : Board Task)
  : Board Task :=
  match submit initial title description priority due with
  | Alert _ => board
  | OnSave t => saveTask uuid nowU nowC nowT t board
  end.
End Modal.

(** [deleteTask(id)]; [confirmed] is the answer of the confirm dialog. *)
Definition deleteTask (confirmed : bool) (now : string) (id : string)
    (board : Board Task) : Board Task :=
  match tasks board !! id with
  | None => board
  | Some t =>
      if negb confirmed then board
      else
        let colId := Js.key (columnId t) in
        let nextOrder :=
          Js.without id (default [] (Js.get colId (order board))) in
        withState board (delete id (tasks board))
                  (Js.set colId nextOrder (order board)) now
  end.

(** The destination column of a drop on [overId]. *)
Definition toColumn (board : Board Task) (fromColId : option string)
    (overId : string) : option string :=
  if bool_decide (is_Some (Js.get overId (order board))) then Some overId
  else match tasks board !! overId with
       | Some t => columnId t
       | None => fromColId
       end.

(** [handleDragEnd(ev)]: [over] is [ev.over.id], [None] for a cancelled
    drop. *)
Definition handleDragEnd (nowU nowT : string) (activeId : string)
    (over : option string) (board : Board Task) : Board Task :=
  match over with
  | None => board
  | Some overId =>
      let fromColId := tasks board !! activeId ≫= columnId in
      let toColId := toColumn board fromColId overId in
      let fromOrder :=
        Js.without activeId
          (default [] (Js.get (Js.key fromColId) (order board))) in
      let toOrder0 := default [] (Js.get (Js.key toColId) (order board)) in
      let toOrder :=
        match tasks board !! overId with
        | Some t =>
            if bool_decide (taskId t ≠ Some activeId) then
              let idx := Js.indexOf overId toOrder0 in
              if decide (idx = (-1)%Z) then Js.push activeId toOrder0
              else Js.splice idx 0 [activeId] toOrder0
            else Js.push activeId toOrder0
        | None => Js.push activeId toOrder0
        end in
      let nextTasks :=
        <[activeId := moved (default noTask (tasks board !! activeId))
                            toColId nowU]> (tasks board) in
      withState board nextTasks
        (Js.set (Js.key toColId) toOrder
           (Js.set (Js.key fromColId) fromOrder (order board)))
        nowT
  end.

(** The entry points as requests, each with the answers of the
    collaborators it consults. *)
Inductive Request :=
| Save (uuid nowU nowC nowT : string) (taskPartial : Task)
| Delete (confirmed : bool) (now id : string)
| DragEnd (nowU nowT activeId : string) (over : option string).

Definition apply (r : Request) (board : Board Task) : Board Task :=
  match r with
  | Save uuid nowU nowC nowT p => saveTask uuid nowU nowC nowT p board
  | Delete confirmed now id => deleteTask confirmed now id board
  | DragEnd nowU nowT a over => handleDragEnd nowU nowT a over board
  end.

(** Events are applied one after the other, each to the snapshot the
    previous one produced. *)
Definition run (rs : list Request) (board : Board Task) : Board Task :=
  foldl (λ b r, apply r b) board rs.

(** [tasksByColumn]: every listed card that has a record. *)
Definition tasksByColumn (board : Board Task) : Js.obj (list Task) :=
  cardsByColumn (λ _, true) board.

End TaskMaster.

(** ** The simplified edition (prototypes/taskdragmaster) *)

Module TaskDragMaster.

(** A task object.  A field that is absent or [undefined] is [None]. *)
Record Task := mkTask {
  taskId : option string;
  title : option string;
  description : option string;
  priority : option string;
  due : option string;
  createdAt : option string;
  updatedAt : option string;
  columnId : option string;
}.

(** The empty object [{}]. *)
Definition noTask : Task := mkTask None None None None None None None None.

(** [{...t, columnId: toColId, updatedAt: now}]. *)
Definition moved (t : Task) (toColId : option string) (now : string) : Task :=
  mkTask (taskId t) (title t) (description t) (priority t) (due t)
         (createdAt t) (Some now) toColId.

Definition DEFAULT_COLUMNS : list Column :=
  [ mkColumn "todo" "To do"; mkColumn "inprogress" "In progress";
    mkColumn "done" "Done" ].

(** [emptyBoard]: one empty order list under the id of each of the
    three default columns. *)
Definition emptyBoard (now : string) : Board Task :=
  let columns := DEFAULT_COLUMNS in
  mkBoard "default" "My Board" columns ∅
          (Js.set (default EmptyString (colId <$> columns !! 2)) []
             (Js.set (default EmptyString (colId <$> columns !! 1)) []
                (Js.set (default EmptyString (colId <$> columns !! 0)) []
                   [])))
          now.

(** [newTask(partial)]; [nowC] and [nowU] are the two clock readings. *)
Definition newTask (uuid nowC nowU : string) (partial : Task) : Task :=
  mkTask (Some uuid)
         (Some (Js.or_else (title partial) "New task"))
         (Some (Js.or_else (description partial) EmptyString))
         (Some (Js.or_else (priority partial) "medium"))
         (Some (Js.or_else (due partial) EmptyString))
         (Some nowC) (Some nowU)
         (Some (Js.or_else (columnId partial)
                  (default EmptyString (colId <$> DEFAULT_COLUMNS !! 0)))).

(** The tail of [addTask] after [const t = newTask(..)]: store [t] and
    put its id at the head of its column. *)
Definition addNew (nowT : string) (t : Task) (board : Board Task)
  : Board Task :=
  let colId := Js.key (columnId t) in
  let id := Js.key (taskId t) in
  withState board (<[id := t]> (tasks board))
    (Js.set colId (id :: default [] (Js.get colId (order board)))
            (order board))
    nowT.

(** [addTask()]: always [newTask({})]. *)
Definition addTask (uuid nowC nowU nowT : string) (board : Board Task)
  : Board Task :=
  addNew nowT (newTask uuid nowC nowU noTask) board.

(** [deleteTask(id)]. *)
Definition deleteTask (now : string) (id : string) (board : Board Task)
  : Board Task :=
  match tasks board !! id with
  | None => board
  | Some t =>
      let colId := Js.key (columnId t) in
      let nextOrder :=
        Js.without id (default [] (Js.get colId (order board))) in
      withState board (delete id (tasks board))
                (Js.set colId nextOrder (order board)) now
  end.

(** [handleDragEnd(ev)]: [over] is [ev.over.id], [None] for a cancelled
    drop. *)
Definition handleDragEnd (nowU nowT : string) (activeId : string)
    (over : option string) (board : Board Task) : Board Task :=
  match over with
  | None => board
  | Some overId =>
      let fromColId := tasks board !! activeId ≫= columnId in
      let toColId :=
        if bool_decide (is_Some (Js.get overId (order board)))
        then Some overId else fromColId in
      let fromOrder0 := default [] (Js.get (Js.key fromColId) (order board)) in
      let toOrder0 := default [] (Js.get (Js.key toColId) (order board)) in
      let fromIdx := Js.indexOf activeId fromOrder0 in
      let fromOrder :=
        if decide (fromIdx ≠ (-1)%Z) then Js.splice fromIdx 1 [] fromOrder0
        else fromOrder0 in
      let overIndex := Js.indexOf overId toOrder0 in
      let toOrder :=
        if decide (overIndex = (-1)%Z) then Js.push activeId toOrder0
        else Js.splice overIndex 0 [activeId] toOrder0 in
      withState board
        (<[activeId := moved (default noTask (tasks board !! activeId))
                             toColId nowU]> (tasks board))
        (Js.set (Js.key toColId) toOrder
           (Js.set (Js.key fromColId) fromOrder (order board)))
        nowT
  end.

(** [tasksByColumn]: every listed card that has a record. *)
Definition tasksByColumn (board : Board Task) : Js.obj (list Task) :=
  cardsByColumn (λ _, true) board.

End TaskDragMaster.

(** ** Specification-side predicates *)

(** The frame of a deletion of [id]: every other task record is as
    before, and every order list keeps its remaining ids in their
    relative order, losing nothing but occurrences of [id]. *)
Definition delete_frame {T} (id : string) (b b' : Board T) : Prop :=
  (∀ j, j ≠ id → tasks b' !! j = tasks b !! j) ∧
  (∀ c l, Js.get c (order b) = Some l →
     ∃ l', Js.get c (order b') = Some l' ∧
           l' `sublist_of` l ∧ Js.without id l' = Js.without id l).

(** Number of times [id] is listed in one order list. *)
Definition listed (id : string) (l : list string) : nat :=
  length (filter (λ x, x = id) l).

(** Entry by entry, [filterAll] keeps every key and either keeps the list
    or filters it. *)
Definition filtered_entry (id : string) (e e' : string * list string) : Prop :=
  e'.1 = e.1 ∧ (e'.2 = e.2 ∨ e'.2 = Js.without id e.2).

(** The board fields no handler is meant to touch. *)
Definition same_frame {T} (b b' : Board T) : Prop :=
  boardId b' = boardId b ∧ boardName b' = boardName b ∧
  columns b' = columns b.

(** ** Example boards *)

Module Examples.

(** A taskmaster board whose order lists have drifted from the column
    field: card A is recorded in todo but also listed under done. *)
Definition tmCard (i col : string) : TaskMaster.Task :=
  TaskMaster.mkTask (Some i) (Some "card") (Some EmptyString) (Some "medium")
                    (Some EmptyString) (Some "t0") (Some "t0") (Some col).

Definition tmDrifted : Board TaskMaster.Task :=
  mkBoard "default" "My Board" TaskMaster.DEFAULT_COLUMNS
          {[ "A" := tmCard "A" "todo" ]}
          [("todo", ["A"]); ("inprogress", []); ("done", ["A"])] "t0".

Definition tdmCard (i col : string) : TaskDragMaster.Task :=
  TaskDragMaster.mkTask (Some i) (Some "card") (Some EmptyString)
                        (Some "medium") (Some EmptyString) (Some "t0")
                        (Some "t0") (Some col).

Definition tdmDrifted : Board TaskDragMaster.Task :=
  mkBoard "default" "My Board" TaskDragMaster.DEFAULT_COLUMNS
          {[ "A" := tdmCard "A" "todo" ]}
          [("todo", ["A"]); ("inprogress", []); ("done", ["A"])] "t0".

Definition v2Card (i col : string) : BoardV2.Task :=
  BoardV2.mkTask (Some i) (Some "card") (Some EmptyString) (Some "medium")
                 (Some EmptyString) (Some EmptyString) (Some col)
                 (Some "t0") (Some "t0").

Definition v2Drifted : Board BoardV2.Task :=
  mkBoard "main" "Board" BoardV2.DEFAULT_COLUMNS
          {[ "A" := v2Card "A" "todo" ]}
          [("todo", ["A"]); ("inprogress", []); ("done", ["A"])] "t0".

(** One column todo holding A, B, C in this order. *)
Definition tmABC : Board TaskMaster.Task :=
  mkBoard "default" "My Board" [mkColumn "todo" "To do"]
          (<["A" := tmCard "A" "todo"]>
             (<["B" := tmCard "B" "todo"]> {[ "C" := tmCard "C" "todo" ]}))
          [("todo", ["A"; "B"; "C"])] "t0".

Definition tdmABC : Board TaskDragMaster.Task :=
  mkBoard "default" "My Board" [mkColumn "todo" "To do"]
          (<["A" := tdmCard "A" "todo"]>
             (<["B" := tdmCard "B" "todo"]> {[ "C" := tdmCard "C" "todo" ]}))
          [("todo", ["A"; "B"; "C"])] "t0".

Definition v2ABC : Board BoardV2.Task :=
  mkBoard "main" "Board" [mkColumn "todo" "To Do"]
          (<["A" := v2Card "A" "todo"]>
             (<["B" := v2Card "B" "todo"]> {[ "C" := v2Card "C" "todo" ]}))
          [("todo", ["A"; "B"; "C"])] "t0".

(** Card A in todo, card B in done. *)
Definition tmTwoColumns : Board TaskMaster.Task :=
  mkBoard "default" "My Board" TaskMaster.DEFAULT_COLUMNS
          (<["A" := tmCard "A" "todo"]> {[ "B" := tmCard "B" "done" ]})
          [("todo", ["A"]); ("inprogress", []); ("done", ["B"])] "t0".

Definition tdmTwoColumns : Board TaskDragMaster.Task :=
  mkBoard "default" "My Board" TaskDragMaster.DEFAULT_COLUMNS
          (<["A" := tdmCard "A" "todo"]> {[ "B" := tdmCard "B" "done" ]})
          [("todo", ["A"]); ("inprogress", []); ("done", ["B"])] "t0".

Definition v2TwoColumns : Board BoardV2.Task :=
  mkBoard "main" "Board" BoardV2.DEFAULT_COLUMNS
          (<["A" := v2Card "A" "todo"]> {[ "B" := v2Card "B" "done" ]})
          [("todo", ["A"]); ("inprogress", []); ("done", ["B"])] "t0".

(** What the modal form sends for a new card titled "card". *)
Definition tmNew : TaskMaster.Task :=
  TaskMaster.mkTask None (Some "card") (Some EmptyString) (Some "medium")
                    (Some EmptyString) None None (Some "todo").

Definition v2New : BoardV2.Task :=
  BoardV2.mkTask None (Some "card") (Some EmptyString) (Some "medium")
                 (Some EmptyString) (Some EmptyString) (Some "todo") None None.

(** Create card A, then drop it on the todo column it is already in. *)
Definition v2DropOnOwnColumn : list BoardV2.Request :=
  [ BoardV2.Save "A" "t1" "t1" "t1" v2New;
    BoardV2.DragEnd "t2" "t2" "A" (Some "todo") ].

(** The same in the modal edition, with a second card B created first. *)
Definition tmDropOnOwnColumn : list TaskMaster.Request :=
  [ TaskMaster.Save "B" "t1" "t1" "t1" tmNew;
    TaskMaster.Save "A" "t2" "t2" "t2" tmNew;
    TaskMaster.DragEnd "t3" "t3" "A" (Some "todo") ].

(** An edit request naming an id the store does not hold. *)
Definition tmGhostEdit : TaskMaster.Task :=
  TaskMaster.mkTask (Some "ghost") (Some "card") (Some EmptyString)
                    (Some "medium") (Some EmptyString) None None (Some "todo").

End Examples.

(** * Properties *)

(** ** Facts about the JavaScript primitives *)

Section JsFacts.
Context {V : Type}.
Implicit Types (o : Js.obj V) (k : string) (v : V).

Lemma get_set_eq k v o : Js.get k (Js.set k v o) = Some v.
Proof.
  induction o as [|[k' v'] o IH]; simpl.
  - by rewrite decide_True.
  - destruct (decide (k = k')) as [->|Hne]; simpl.
    + by rewrite decide_True.
    + by rewrite decide_False.
Qed.

Lemma get_set_ne k k' v o : k ≠ k' → Js.get k' (Js.set k v o) = Js.get k' o.
Proof.
  intros Hne. induction o as [|[k0 v0] o IH]; simpl.
  - by rewrite decide_False.
  - destruct (decide (k = k0)) as [->|Hk]; simpl.
    + by rewrite !decide_False.
    + destruct (decide (k' = k0)); [done | apply IH].
Qed.

Lemma get_set k k' v o :
  Js.get k' (Js.set k v o) = if decide (k = k') then Some v else Js.get k' o.
Proof.
  destruct (decide (k = k')) as [->|Hne];
    [apply get_set_eq | by apply get_set_ne].
Qed.

(** Writing back the value a key already has changes nothing. *)
Lemma set_same k v o : Js.get k o = Some v → Js.set k v o = o.
Proof.
  induction o as [|[k' v'] o IH]; simpl; [done |].
  destruct (decide (k = k')) as [->|Hne]; [congruence |].
  intros H. by rewrite IH.
Qed.

(** Of two writes to one key the later one stands. *)
Lemma set_set k v v' o : Js.set k v (Js.set k v' o) = Js.set k v o.
Proof.
  induction o as [|[k' v0] o IH]; simpl.
  - by rewrite decide_True.
  - destruct (decide (k = k')) as [->|Hne]; simpl.
    + by rewrite decide_True.
    + by rewrite decide_False, IH.
Qed.

Lemma keys_set_get k o : k ∈ Js.keys o → is_Some (Js.get k o).
Proof.
  induction o as [|[k' v'] o IH]; simpl.
  - by intros ?%elem_of_nil.
  - destruct (decide (k = k')); [eauto |].
    intros [?|?]%elem_of_cons; [done | by apply IH].
Qed.

Lemma get_keys k v o : Js.get k o = Some v → k ∈ Js.keys o.
Proof.
  induction o as [|[k' v'] o IH]; simpl; [done |].
  destruct (decide (k = k')) as [->|Hne]; [intros _; left |].
  intros H. right. by apply IH.
Qed.

End JsFacts.

Section ListFacts.
Implicit Types (x y : string) (l : list string).

Lemma indexOf_lower x l : (-1 ≤ Js.indexOf x l)%Z.
Proof.
  induction l as [|y l IH]; simpl; [lia |].
  repeat case_decide; lia.
Qed.

Lemma indexOf_absent x l : x ∉ l ↔ Js.indexOf x l = (-1)%Z.
Proof.
  induction l as [|y l IH]; simpl.
  - split; [done | intros _; apply not_elem_of_nil].
  - destruct (decide (y = x)) as [->|Hne].
    + split; [intros []; left | lia].
    + rewrite not_elem_of_cons. pose proof (indexOf_lower x l).
      case_decide.
      * split; [done | intros _; split; [congruence | by apply IH]].
      * split; [intros [_ ?%IH]; done | lia].
Qed.

(** The index found holds [x]. *)
Lemma indexOf_lookup x l :
  x ∈ l → l !! Z.to_nat (Js.indexOf x l) = Some x ∧ (0 ≤ Js.indexOf x l)%Z.
Proof.
  induction l as [|y l IH]; [by intros ?%elem_of_nil |].
  intros Hin. simpl. destruct (decide (y = x)) as [->|Hne]; [done |].
  apply elem_of_cons in Hin as [->|Hin]; [done |].
  destruct (IH Hin) as [Hl H0]. case_decide; [lia |].
  split; [| lia].
  replace (Z.to_nat (Js.indexOf x l + 1)) with (S (Z.to_nat (Js.indexOf x l)))
    by lia.
  done.
Qed.

Lemma splice_at {A} (i : nat) (d : nat) (items l : list A) :
  i ≤ length l →
  Js.splice (Z.of_nat i) d items l = take i l ++ items ++ drop (i + d) l.
Proof.
  intros Hi. unfold Js.splice.
  replace (Z.of_nat i <? 0)%Z with false by lia.
  by replace (Z.to_nat (Z.min (Z.of_nat i) (Z.of_nat (length l)))) with i by lia.
Qed.

Lemma elem_of_splice {A} (s : Z) (d : nat) (x : A) (items l : list A) :
  x ∈ items → x ∈ Js.splice s d items l.
Proof. intros H. unfold Js.splice. set_solver. Qed.

Lemma elem_of_push {A} (x : A) (l : list A) : x ∈ Js.push x l.
Proof. unfold Js.push. set_solver. Qed.

(** Taking [x] out at its index and putting it back before the element
    that was found at that same index restores the list. *)
Lemma splice_out_and_back x l :
  x ∈ l →
  Js.splice (Js.indexOf x l) 0 [x] (Js.splice (Js.indexOf x l) 1 [] l) = l.
Proof.
  intros Hin. destruct (indexOf_lookup x l Hin) as [Hl H0].
  set (i := Z.to_nat (Js.indexOf x l)) in *.
  assert (Hlt : i < length l) by (by eapply lookup_lt_Some).
  replace (Js.indexOf x l) with (Z.of_nat i) by lia.
  rewrite (splice_at i 1 [] l) by lia. simpl.
  rewrite splice_at by (rewrite length_app, length_take, length_drop; lia).
  rewrite take_app_length' by (rewrite length_take; lia).
  rewrite drop_app_length' by (rewrite length_take; lia).
  replace (i + 1) with (S i) by lia.
  simpl. by apply take_drop_middle.
Qed.

Lemma without_spec id x l : x ∈ Js.without id l ↔ x ∈ l ∧ x ≠ id.
Proof. unfold Js.without. rewrite list_elem_of_filter. tauto. Qed.

Lemma without_idemp id l : Js.without id (Js.without id l) = Js.without id l.
Proof. unfold Js.without. by rewrite list_filter_filter_l. Qed.

Lemma without_sublist id l : Js.without id l `sublist_of` l.
Proof. apply sublist_filter. Qed.
End ListFacts.

(** ** Facts about the calendar edition's helpers *)

Section BoardV2Facts.
Import BoardV2.
Implicit Types (o : Js.obj (list string)) (id : string).

Let step id : Js.obj (list string) → string → Js.obj (list string) :=
  λ acc k, match Js.get k acc with
           | Some l => Js.set k (Js.without id l) acc
           | None => acc
           end.

Lemma filterAll_loop id o ks acc :
  (∀ c, Js.get c acc = Js.get c o ∨
        Js.get c acc = Js.without id <$> Js.get c o) →
  let acc' := foldl (step id) acc ks in
  (∀ c, Js.get c acc' = Js.get c o ∨
        Js.get c acc' = Js.without id <$> Js.get c o) ∧
  (∀ c, c ∈ ks ∨ Js.get c acc = Js.without id <$> Js.get c o →
        Js.get c acc' = Js.without id <$> Js.get c o).
Proof.
  revert acc. induction ks as [|k ks IH]; intros acc HP; simpl.
  - split; [done |]. intros c [?%elem_of_nil|?]; done.
  - assert (Hk : Js.get k (step id acc k) = Js.without id <$> Js.get k o).
    { unfold step. destruct (Js.get k acc) as [l|] eqn:E.
      - rewrite get_set_eq. destruct (HP k) as [H|H]; rewrite E in H.
        + by rewrite <- H.
        + destruct (Js.get k o) as [l0|]; simplify_eq/=.
          by rewrite without_idemp.
      - rewrite E. destruct (HP k) as [H|H]; rewrite E in H.
        + by rewrite <- H.
        + done. }
    assert (Hother : ∀ c, c ≠ k → Js.get c (step id acc k) = Js.get c acc).
    { intros c Hc. unfold step. destruct (Js.get k acc); [|done].
      by rewrite get_set_ne. }
    assert (HP' : ∀ c, Js.get c (step id acc k) = Js.get c o ∨
                       Js.get c (step id acc k) = Js.without id <$> Js.get c o).
    { intros c. destruct (decide (c = k)) as [->|Hc]; [by right |].
      rewrite Hother by done. apply HP. }
    destruct (IH _ HP') as [H1 H2]. split; [done |].
    intros c [Hin|Hc]; apply H2.
    + apply elem_of_cons in Hin as [->|Hin]; [by right | by left].
    + right. destruct (decide (c = k)) as [->|Hne]; [done |].
      by rewrite Hother.
Qed.

(** Every order list is filtered, whatever its key. *)
Lemma get_filterAll id o c :
  Js.get c (filterAll id o) = Js.without id <$> Js.get c o.
Proof.
  destruct (filterAll_loop id o (Js.keys o) o) as [HP HQ]; [by left |].
  destruct (Js.get c o) as [l|] eqn:E.
  - rewrite <- E. apply HQ. left. by eapply get_keys.
  - destruct (HP c) as [H|H]; rewrite E in H; exact H.
Qed.

Lemma sourceColumn_Some a o c :
  sourceColumn a o = Some c → ∃ l, Js.get c o = Some l ∧ a ∈ l.
Proof.
  unfold sourceColumn. intros [_ H]%find_some.
  unfold Js.includes in H. apply bool_decide_eq_true in H.
  destruct (Js.get c o) as [l|]; [eauto |].
  by apply elem_of_nil in H.
Qed.

Lemma find_all_false {A} (f : A → bool) (l : list A) :
  (∀ x, x ∈ l → f x = false) → List.find f l = None.
Proof.
  induction l as [|x l IH]; [done |]. intros H. simpl.
  rewrite (H x) by left. apply IH. intros y Hy. apply H. by right.
Qed.

(** An id that no order list holds has no source column. *)
Lemma sourceColumn_None a o :
  (∀ c l, Js.get c o = Some l → a ∉ l) → sourceColumn a o = None.
Proof.
  intros H. apply find_all_false. intros c Hc.
  apply keys_set_get in Hc as [l Hl]. rewrite Hl. simpl.
  apply bool_decide_eq_false. by eapply H.
Qed.
End BoardV2Facts.

(** ** Startup *)

(** C9: when the storage entry is absent, or its payload cannot be
    parsed, each prototype starts from its freshly built empty board: the
    three default columns, no tasks, and an empty order list per column. *)
Theorem C9_load_failure_starts_from_empty_board
    (JSValue : Type) (JSON_parse : string → option JSValue)
    (truthy : JSValue → bool) (stored : option string) (now : string) :
  stored = None ∨ (∃ raw, stored = Some raw ∧ JSON_parse raw = None) →
  (loadStore JSValue JSON_parse stored = None ∧
   loadBoard JSValue JSON_parse stored = None) ∧
  (initialBoard JSValue JSON_parse truthy (TaskMaster.emptyBoard now) stored
     = Fresh (TaskMaster.emptyBoard now) ∧
   initialBoard JSValue JSON_parse truthy (TaskDragMaster.emptyBoard now) stored
     = Fresh (TaskDragMaster.emptyBoard now) ∧
   initialBoard JSValue JSON_parse truthy (BoardV2.emptyBoard now) stored
     = Fresh (BoardV2.emptyBoard now)) ∧
  (tasks (TaskMaster.emptyBoard now) = ∅ ∧
   tasks (TaskDragMaster.emptyBoard now) = ∅ ∧
   tasks (BoardV2.emptyBoard now) = ∅) ∧
  (order (TaskMaster.emptyBoard now)
     = [("todo", []); ("inprogress", []); ("done", [])] ∧
   order (TaskDragMaster.emptyBoard now)
     = [("todo", []); ("inprogress", []); ("done", [])] ∧
   order (BoardV2.emptyBoard now)
     = [("todo", []); ("inprogress", []); ("done", [])]) ∧
  (colId <$> columns (TaskMaster.emptyBoard now) = ["todo"; "inprogress"; "done"] ∧
   colId <$> columns (TaskDragMaster.emptyBoard now) = ["todo"; "inprogress"; "done"] ∧
   colId <$> columns (BoardV2.emptyBoard now) = ["todo"; "inprogress"; "done"]).
Proof.
  intros Hfail.
  assert (Hload : loadStore JSValue JSON_parse stored = None).
  { destruct Hfail as [->|(raw & -> & Hraw)]; simpl; [done |].
    by case_decide. }
  split; [by split |].
  unfold initialBoard. rewrite Hload.
  repeat split.
Qed.

Lemma C9_load_failure_starts_from_empty_board_witness :
  initialBoard unit (λ _, None) (λ _, true) (BoardV2.emptyBoard "t0")
               (Some "{ not json")
    = Fresh (BoardV2.emptyBoard "t0").
Proof.
  refine (proj2 (proj2 (proj1 (proj2
    (C9_load_failure_starts_from_empty_board unit (λ _, None) (λ _, true)
       (Some "{ not json") "t0" _))))).
  right. exists "{ not json". split; reflexivity.
Defined.

(** ** Deleting a task *)

Section DeleteFacts.
Context {T : Type}.
Implicit Types (b : Board T) (id : string).

Lemma delete_frame_refl id b : delete_frame id b b.
Proof. split; [done |]. intros c l Hl. exists l. by split. Qed.

(** The frame of the first two editions' deletion: the task leaves
    [tasks] and one order list is filtered. *)
Lemma delete_frame_one_column id colId now b :
  delete_frame id b
    (withState b (delete id (tasks b))
       (Js.set colId (Js.without id (default [] (Js.get colId (order b))))
               (order b)) now).
Proof.
  split; simpl.
  - intros j Hj. by rewrite lookup_delete_ne.
  - intros c l Hl. rewrite get_set. case_decide as Hc.
    + subst c. rewrite Hl. simpl. eexists. split; [done |].
      split; [apply without_sublist | apply without_idemp].
    + exists l. by split.
Qed.
End DeleteFacts.

(** The calendar edition's deletion filters every order list. *)
Lemma BoardV2_deleteTask_scans_all_columns now id t (board : Board BoardV2.Task) :
  tasks board !! id = Some t →
  let board' := BoardV2.deleteTask true now id board in
  tasks board' !! id = None ∧
  (∀ c, Js.get c (order board') = Js.without id <$> Js.get c (order board)) ∧
  (∀ c l, Js.get c (order board') = Some l → id ∉ l).
Proof.
  intros Ht. unfold BoardV2.deleteTask. rewrite Ht. simpl.
  split; [apply lookup_delete_eq |].
  split; [intros c; apply get_filterAll |].
  intros c l. rewrite get_filterAll.
  destruct (Js.get c (order board)) as [l0|]; [|done].
  intros [= <-]. rewrite without_spec. tauto.
Qed.

(** The first two editions filter the order list of the recorded column,
    and no other. *)
Lemma TaskMaster_deleteTask_recorded_column now id t (board : Board TaskMaster.Task) :
  tasks board !! id = Some t →
  let board' := TaskMaster.deleteTask true now id board in
  let colId := Js.key (TaskMaster.columnId t) in
  tasks board' !! id = None ∧
  Js.get colId (order board')
    = Some (Js.without id (default [] (Js.get colId (order board)))) ∧
  (∀ c, c ≠ colId → Js.get c (order board') = Js.get c (order board)).
Proof.
  intros Ht. unfold TaskMaster.deleteTask. rewrite Ht. simpl.
  split; [apply lookup_delete_eq |].
  split; [apply get_set_eq |].
  intros c Hc. by apply get_set_ne.
Qed.

(** C5: on a board where card A is recorded in todo but also listed under
    done, the first two editions' [deleteTask] drops the task record and
    the todo entry yet leaves A in the done list; the calendar edition's
    [deleteTask] clears it from every list. *)
Theorem C5_delete_leaves_stray_id_outside_recorded_column :
  tasks Examples.tmDrifted !! "A" = Some (Examples.tmCard "A" "todo") ∧
  tasks (TaskMaster.deleteTask true "t1" "A" Examples.tmDrifted) = ∅ ∧
  order (TaskMaster.deleteTask true "t1" "A" Examples.tmDrifted)
    = [("todo", []); ("inprogress", []); ("done", ["A"])] ∧
  tasks (TaskDragMaster.deleteTask "t1" "A" Examples.tdmDrifted) = ∅ ∧
  order (TaskDragMaster.deleteTask "t1" "A" Examples.tdmDrifted)
    = [("todo", []); ("inprogress", []); ("done", ["A"])] ∧
  tasks (BoardV2.deleteTask true "t1" "A" Examples.v2Drifted) = ∅ ∧
  order (BoardV2.deleteTask true "t1" "A" Examples.v2Drifted)
    = [("todo", []); ("inprogress", []); ("done", [])].
Proof. repeat split; by vm_compute. Qed.

(** C10: in each of the three editions, deleting a task that is present
    leaves every other task record as it was, and every order list keeps
    its remaining ids in their relative order: nothing but occurrences of
    the deleted id is removed. *)
Theorem C10_delete_frame (confirmed : bool) (now id : string)
    (tm : Board TaskMaster.Task) (tdm : Board TaskDragMaster.Task)
    (v2 : Board BoardV2.Task) :
  is_Some (tasks tm !! id) →
  is_Some (tasks tdm !! id) →
  is_Some (tasks v2 !! id) →
  delete_frame id tm (TaskMaster.deleteTask confirmed now id tm) ∧
  delete_frame id tdm (TaskDragMaster.deleteTask now id tdm) ∧
  delete_frame id v2 (BoardV2.deleteTask confirmed now id v2).
Proof.
  intros [t1 H1] [t2 H2] [t3 H3]. split; [|split].
  - unfold TaskMaster.deleteTask. rewrite H1.
    destruct confirmed; simpl;
      [apply delete_frame_one_column | apply delete_frame_refl].
  - unfold TaskDragMaster.deleteTask. rewrite H2.
    apply delete_frame_one_column.
  - unfold BoardV2.deleteTask.
    destruct confirmed; simpl; [|apply delete_frame_refl].
    rewrite H3. split; simpl.
    + intros j Hj. by rewrite lookup_delete_ne.
    + intros c l Hl. rewrite get_filterAll, Hl. simpl.
      eexists. split; [done |].
      split; [apply without_sublist | apply without_idemp].
Qed.

Lemma C10_delete_frame_witness :
  delete_frame "A" Examples.tmDrifted
    (TaskMaster.deleteTask true "t1" "A" Examples.tmDrifted) ∧
  delete_frame "A" Examples.tdmDrifted
    (TaskDragMaster.deleteTask "t1" "A" Examples.tdmDrifted) ∧
  delete_frame "A" Examples.v2Drifted
    (BoardV2.deleteTask true "t1" "A" Examples.v2Drifted).
Proof.
  apply (C10_delete_frame true "t1" "A" Examples.tmDrifted Examples.tdmDrifted
           Examples.v2Drifted); eexists; reflexivity.
Defined.


(** ** Dropping a card on another card *)

(** Whatever branch builds the destination list, the dragged card ends up
    in it: it is pushed or spliced in. *)
Ltac card_listed :=
  repeat case_match;
  first [apply elem_of_push | apply elem_of_splice; by left].





(** The three handler functions run on one card-target event, card A of
    todo dropped on card B of done.  The simplified handler looks only
    column ids up and so keeps todo as destination; its page, like the
    modal one, registers the columns alone as drop targets, so this
    event is an input of the function that the page itself does not
    deliver. *)
Remark handlers_on_card_target_other_column :
  Js.get "B" (order Examples.tdmTwoColumns) = None ∧
  tasks Examples.tdmTwoColumns !! "B" = Some (Examples.tdmCard "B" "done") ∧
  order (TaskDragMaster.handleDragEnd "t1" "t2" "A" (Some "B")
           Examples.tdmTwoColumns)
    = [("todo", ["A"; "A"]); ("inprogress", []); ("done", ["B"])] ∧
  (tasks (TaskDragMaster.handleDragEnd "t1" "t2" "A" (Some "B")
            Examples.tdmTwoColumns) !! "A" ≫= TaskDragMaster.columnId)
    = Some "todo" ∧
  order (TaskMaster.handleDragEnd "t1" "t2" "A" (Some "B")
           Examples.tmTwoColumns)
    = [("todo", []); ("inprogress", []); ("done", ["A"; "B"])] ∧
  (tasks (TaskMaster.handleDragEnd "t1" "t2" "A" (Some "B")
            Examples.tmTwoColumns) !! "A" ≫= TaskMaster.columnId)
    = Some "done" ∧
  order (BoardV2.handleDragEnd "t1" "t2" "A" (Some "B") Examples.v2TwoColumns)
    = [("todo", []); ("inprogress", []); ("done", ["A"; "B"])] ∧
  (tasks (BoardV2.handleDragEnd "t1" "t2" "A" (Some "B")
            Examples.v2TwoColumns) !! "A" ≫= BoardV2.status)
    = Some "done".
Proof. repeat split; by vm_compute. Qed.

(** C2: in the calendar edition, the one whose page delivers card
    targets, on a board whose only column todo holds A, B, C in this
    order, dropping card C on card B yields the todo order A, C, B: C
    leaves its old position and is inserted immediately before B. *)
Theorem C2_insert_before_in_calendar_edition nowU nowT (A B C : string) tB
    (board : Board BoardV2.Task) :
  order board = [("todo", [A; B; C])] →
  A ≠ B → A ≠ C → B ≠ C → B ≠ "todo" →
  tasks board !! B = Some tB →
  BoardV2.status tB = Some "todo" →
  order (BoardV2.handleDragEnd nowU nowT C (Some B) board)
    = [("todo", [A; C; B])].
Proof.
  intros Ho HAB HAC HBC Hcol HB Hst.
  assert (Hsrc : BoardV2.sourceColumn C (order board) = Some "todo").
  { rewrite Ho. unfold BoardV2.sourceColumn. simpl.
    unfold Js.includes. rewrite bool_decide_eq_true_2; [done |].
    set_solver. }
  assert (Hdst : BoardV2.destColumn board (Some "todo") B = Some "todo").
  { unfold BoardV2.destColumn. rewrite Ho, HB. simpl.
    by rewrite decide_False by done. }
  unfold BoardV2.handleDragEnd. rewrite Hsrc, Hdst. simpl.
  rewrite HB, Ho. simpl.
  rewrite !(decide_False (P := A = C)) by done.
  rewrite !(decide_False (P := B = C)) by done.
  rewrite !(decide_False (P := C = B)) by congruence.
  rewrite !(decide_True (P := C = C)) by done.
  rewrite !(decide_False (P := A = B)) by done.
  rewrite !(decide_True (P := B = B)) by done.
  reflexivity.
Qed.

Lemma C2_insert_before_in_calendar_edition_witness :
  order (BoardV2.handleDragEnd "t1" "t2" "C" (Some "B") Examples.v2ABC)
    = [("todo", ["A"; "C"; "B"])].
Proof.
  refine (C2_insert_before_in_calendar_edition "t1" "t2" "A" "B" "C"
            (Examples.v2Card "B" "todo") Examples.v2ABC _ _ _ _ _ _ _);
    done.
Defined.

(** The three handler functions run on the same card-target event.  The
    modal and simplified handlers insert C before B into a copy of the
    column that still holds C; their pages register the columns alone as
    drop targets, so this event is an input of the functions that the
    pages themselves do not deliver. *)
Remark handlers_on_card_target_same_column :
  order (TaskMaster.handleDragEnd "t1" "t2" "C" (Some "B") Examples.tmABC)
    = [("todo", ["A"; "C"; "B"; "C"])] ∧
  order (TaskDragMaster.handleDragEnd "t1" "t2" "C" (Some "B") Examples.tdmABC)
    = [("todo", ["A"; "C"; "B"; "C"])] ∧
  order (BoardV2.handleDragEnd "t1" "t2" "C" (Some "B") Examples.v2ABC)
    = [("todo", ["A"; "C"; "B"])].
Proof. repeat split; by vm_compute. Qed.


(** ** The invariant and its check *)

Lemma board_ok_spec {T} (col : T → option string) (b : Board T) :
  board_ok col b = true ↔ board_inv col b.
Proof.
  unfold board_ok, board_inv. rewrite forallb_forall. split.
  - intros H id t Ht.
    assert (Hin : In (id, t) (map_to_list (tasks b)))
      by (by apply list_elem_of_In, elem_of_map_to_list).
    apply H in Hin. simpl in Hin. unfold task_ok in Hin.
    apply andb_prop in Hin as [H1 H2].
    split; [by apply bool_decide_eq_true in H1 |].
    destruct (col t) as [c|]; [|done].
    destruct (Js.get c (order b)) as [l|] eqn:Hl; [|done].
    apply bool_decide_eq_true in H2. by exists c, l.
  - intros H [id t] Hin. simpl.
    apply list_elem_of_In, elem_of_map_to_list in Hin.
    destruct (H id t Hin) as [H1 (c & l & Hc & Hl & Hin')].
    unfold task_ok. rewrite Hc, Hl.
    apply andb_true_intro. split; by apply bool_decide_eq_true.
Qed.

Lemma occurrences_cons id k v (o : Js.obj (list string)) :
  occurrences id ((k, v) :: o)
    = length (filter (λ x, x = id) v) + occurrences id o.
Proof. reflexivity. Qed.

Lemma filter_eq_nonempty (id : string) (m : list string) :
  id ∈ m → 1 ≤ length (filter (λ x, x = id) m).
Proof.
  intros Hm.
  assert (id ∈ filter (λ x, x = id) m) as Hf by (by apply list_elem_of_filter).
  destruct (filter (λ x, x = id) m); [by apply elem_of_nil in Hf |].
  simpl. lia.
Qed.

Lemma occurrences_one id c l (o : Js.obj (list string)) :
  Js.get c o = Some l → id ∈ l → 1 ≤ occurrences id o.
Proof.
  induction o as [|[k v] o IH]; [done |].
  rewrite occurrences_cons. simpl.
  destruct (decide (c = k)) as [->|Hne].
  - intros [= ->] Hin. pose proof (filter_eq_nonempty id l Hin). lia.
  - intros Hl Hin. specialize (IH Hl Hin). lia.
Qed.

(** An id listed under two different keys occurs at least twice. *)
Lemma occurrences_two id c c' l l' (o : Js.obj (list string)) :
  c ≠ c' → Js.get c o = Some l → Js.get c' o = Some l' →
  id ∈ l → id ∈ l' → 2 ≤ occurrences id o.
Proof.
  intros Hne. induction o as [|[k v] o IH]; [done |].
  rewrite occurrences_cons. simpl.
  intros Hl Hl' Hin Hin'.
  destruct (decide (c = k)) as [->|Hck], (decide (c' = k)) as [->|Hck'];
    simplify_eq.
  - pose proof (filter_eq_nonempty id _ Hin).
    pose proof (occurrences_one _ _ _ _ Hl' Hin'). lia.
  - pose proof (filter_eq_nonempty id _ Hin').
    pose proof (occurrences_one _ _ _ _ Hl Hin). lia.
  - specialize (IH Hl Hl' Hin Hin'). lia.
Qed.

(** On a board that satisfies the invariant, the column found by scanning
    the order lists is the one the card's record names. *)
Lemma sourceColumn_of_invariant t tk (board : Board BoardV2.Task) :
  board_inv BoardV2.status board →
  tasks board !! t = Some tk →
  ∃ c, BoardV2.status tk = Some c ∧
       BoardV2.sourceColumn t (order board) = Some c.
Proof.
  intros Hinv Ht. destruct (Hinv t tk Ht) as [Hocc (c & l & Hst & Hl & Hin)].
  exists c. split; [done |].
  destruct (BoardV2.sourceColumn t (order board)) as [c'|] eqn:Hsrc.
  - destruct (sourceColumn_Some _ _ _ Hsrc) as (l' & Hl' & Hin').
    destruct (decide (c = c')) as [->|Hne]; [done |].
    pose proof (occurrences_two t c c' l l' (order board) Hne Hl Hl' Hin Hin').
    lia.
  - unfold BoardV2.sourceColumn in Hsrc.
    pose proof (find_none _ _ Hsrc c) as Hc. simpl in Hc.
    rewrite Hl in Hc. simpl in Hc.
    assert (Hk : In c (Js.keys (order board)))
      by (apply list_elem_of_In; by eapply get_keys).
    apply Hc in Hk. unfold Js.includes in Hk.
    by apply bool_decide_eq_false in Hk.
Qed.

(** C1: starting from the empty board, creating a card and dropping it on
    the column it is already in leaves it listed twice, in the calendar
    edition and in the modal edition alike.  The board before the drop
    satisfies the invariant, the board after it does not. *)
Theorem C1_same_column_drop_breaks_invariant :
  (board_inv BoardV2.status (BoardV2.emptyBoard "t0") ∧
   board_inv BoardV2.status
     (BoardV2.run (take 1 Examples.v2DropOnOwnColumn) (BoardV2.emptyBoard "t0")) ∧
   order (BoardV2.run Examples.v2DropOnOwnColumn (BoardV2.emptyBoard "t0"))
     = [("todo", ["A"; "A"]); ("inprogress", []); ("done", [])] ∧
   ¬ board_inv BoardV2.status
       (BoardV2.run Examples.v2DropOnOwnColumn (BoardV2.emptyBoard "t0"))) ∧
  (board_inv TaskMaster.columnId (TaskMaster.emptyBoard "t0") ∧
   board_inv TaskMaster.columnId
     (TaskMaster.run (take 2 Examples.tmDropOnOwnColumn)
        (TaskMaster.emptyBoard "t0")) ∧
   order (TaskMaster.run Examples.tmDropOnOwnColumn (TaskMaster.emptyBoard "t0"))
     = [("todo", ["A"; "B"; "A"]); ("inprogress", []); ("done", [])] ∧
   ¬ board_inv TaskMaster.columnId
       (TaskMaster.run Examples.tmDropOnOwnColumn (TaskMaster.emptyBoard "t0"))).
Proof.
  split_and!;
    first [ by apply board_ok_spec; vm_compute
          | by vm_compute
          | rewrite <- board_ok_spec; by vm_compute ].
Qed.

(** ** Dropping a card on itself *)

(** C3 (as amended): in the calendar edition, when the card is not a
    column id and its record names the column whose order list holds it,
    dropping it on itself leaves every order list as it was; the only
    change to [tasks] is the card's own [updatedAt], set to the time of
    the drop, and the board's [ts] is set as well.  Nothing short-cuts
    the drop. *)
Theorem C3_self_drop_keeps_order_and_touches_timestamp
    nowU nowT t tk c (board : Board BoardV2.Task) :
  tasks board !! t = Some tk →
  Js.get t (order board) = None →
  BoardV2.sourceColumn t (order board) = Some c →
  BoardV2.status tk = Some c →
  let board' := BoardV2.handleDragEnd nowU nowT t (Some t) board in
  order board' = order board ∧
  tasks board' =
    <[t := BoardV2.mkTask (BoardV2.taskId tk) (BoardV2.title tk)
             (BoardV2.description tk) (BoardV2.priority tk) (BoardV2.due tk)
             (BoardV2.tag tk) (BoardV2.status tk) (BoardV2.createdAt tk)
             (Some nowU)]> (tasks board) ∧
  ts board' = nowT.
Proof.
  intros Ht Hcol Hsrc Hst. simpl.
  destruct (sourceColumn_Some _ _ _ Hsrc) as (l & Hl & Hin).
  assert (Hdst : BoardV2.destColumn board (Some c) t = Some c).
  { unfold BoardV2.destColumn. rewrite Hcol, Ht.
    rewrite bool_decide_eq_false_2; [done | by intros [? ?]]. }
  unfold BoardV2.handleDragEnd. rewrite Hsrc, Hdst, Ht. simpl. rewrite Hl. simpl.
  rewrite (bool_decide_eq_true_2 (Some c = Some c)) by done. simpl.
  rewrite splice_out_and_back by done.
  rewrite set_set, set_same by done.
  unfold BoardV2.moved. by rewrite Hst.
Qed.

Lemma C3_self_drop_keeps_order_and_touches_timestamp_witness :
  order (BoardV2.handleDragEnd "t1" "t2" "C" (Some "C") Examples.v2ABC)
    = order Examples.v2ABC.
Proof.
  refine (proj1 (C3_self_drop_keeps_order_and_touches_timestamp
                   "t1" "t2" "C" (Examples.v2Card "C" "todo") "todo"
                   Examples.v2ABC _ _ _ _)); reflexivity.
Defined.

(** C3 fails as stated: the self-drop rewrites the card's record with a
    new [updatedAt]. *)
Lemma C3_self_drop_changes_tasks :
  ¬ (order (BoardV2.handleDragEnd "t1" "t2" "C" (Some "C") Examples.v2ABC)
       = order Examples.v2ABC ∧
     tasks (BoardV2.handleDragEnd "t1" "t2" "C" (Some "C") Examples.v2ABC)
       = tasks Examples.v2ABC).
Proof.
  intros [_ H]. apply (f_equal (λ m, m !! "C" ≫= BoardV2.updatedAt)) in H.
  vm_compute in H. discriminate H.
Qed.


(** ** A drag event naming an unknown card *)

(** C6 (as amended): a drag event whose active id is in neither [tasks]
    nor any order list is not rejected.  With a drop target, the modal
    and calendar editions store a record under that id holding only the
    destination column and [updatedAt], and list the id in the
    destination's order list; only a cancelled drop (no target) leaves
    the board as it was. *)
Theorem C6_unknown_active_id_is_recorded nowU nowT a overId
    (v2 : Board BoardV2.Task) (tm : Board TaskMaster.Task) :
  tasks v2 !! a = None →
  (∀ c l, Js.get c (order v2) = Some l → a ∉ l) →
  tasks tm !! a = None →
  (∀ c l, Js.get c (order tm) = Some l → a ∉ l) →
  (let destCol := BoardV2.destColumn v2 None overId in
   let v2' := BoardV2.handleDragEnd nowU nowT a (Some overId) v2 in
   tasks v2' !! a
     = Some (BoardV2.mkTask None None None None None None destCol None
                            (Some nowU)) ∧
   ∃ l, Js.get (Js.key destCol) (order v2') = Some l ∧ a ∈ l) ∧
  (let toColId := TaskMaster.toColumn tm None overId in
   let tm' := TaskMaster.handleDragEnd nowU nowT a (Some overId) tm in
   tasks tm' !! a
     = Some (TaskMaster.mkTask None None None None None None (Some nowU)
                               toColId) ∧
   ∃ l, Js.get (Js.key toColId) (order tm') = Some l ∧ a ∈ l) ∧
  BoardV2.handleDragEnd nowU nowT a None v2 = v2 ∧
  TaskMaster.handleDragEnd nowU nowT a None tm = tm.
Proof.
  intros Hv2 Hov2 Htm _.
  split_and!; [| | done | done]; simpl; split.
  - unfold BoardV2.handleDragEnd.
    rewrite (sourceColumn_None _ _ Hov2), Hv2. simpl.
    by rewrite lookup_insert_eq.
  - unfold BoardV2.handleDragEnd.
    rewrite (sourceColumn_None _ _ Hov2). simpl.
    rewrite get_set_eq. eexists. split; [done |].
    card_listed.
  - unfold TaskMaster.handleDragEnd. rewrite Htm. simpl.
    by rewrite lookup_insert_eq.
  - unfold TaskMaster.handleDragEnd. rewrite Htm. simpl.
    rewrite get_set_eq. eexists. split; [done |].
    card_listed.
Qed.

Lemma C6_unknown_active_id_is_recorded_witness :
  ∃ l, Js.get "todo"
         (order (BoardV2.handleDragEnd "t1" "t2" "ghost" (Some "todo")
                   (BoardV2.emptyBoard "t0"))) = Some l ∧ "ghost" ∈ l.
Proof.
  refine (proj2 (proj1 (C6_unknown_active_id_is_recorded
                          "t1" "t2" "ghost" "todo" (BoardV2.emptyBoard "t0")
                          (TaskMaster.emptyBoard "t0") _ _ _ _))).
  - reflexivity.
  - intros c l H. vm_compute in H.
    repeat (case_match; simplify_eq); apply not_elem_of_nil.
  - reflexivity.
  - intros c l H. vm_compute in H.
    repeat (case_match; simplify_eq); apply not_elem_of_nil.
Defined.

(** C6 fails as stated: on the empty board, dragging an unknown id onto
    the todo column creates a [tasks] entry for it and lists it in todo. *)
Lemma C6_unknown_active_id_changes_board :
  ¬ (tasks (BoardV2.handleDragEnd "t1" "t2" "ghost" (Some "todo")
              (BoardV2.emptyBoard "t0")) !! "ghost" = None ∧
     ∀ c l, Js.get c (order (BoardV2.handleDragEnd "t1" "t2" "ghost"
                                (Some "todo") (BoardV2.emptyBoard "t0")))
              = Some l → "ghost" ∉ l).
Proof. intros [H _]. vm_compute in H. discriminate H. Qed.

(** ** Saving a task *)

(** C7 (as amended): [saveTask] with a non-empty id that [tasks] does
    not hold does not fail.  It stores the request under that id, with
    [createdAt] and [updatedAt] set from the clock (and, in the calendar
    edition, [status] defaulting to todo), puts the id at the head of the
    todo order list, and leaves the other task records alone. *)
Theorem C7_save_with_unknown_id_creates_the_task uuid nowU nowC nowT i
    (p1 : TaskMaster.Task) (p2 : BoardV2.Task)
    (tm : Board TaskMaster.Task) (v2 : Board BoardV2.Task) :
  i ≠ EmptyString →
  TaskMaster.taskId p1 = Some i → tasks tm !! i = None →
  BoardV2.taskId p2 = Some i → tasks v2 !! i = None →
  (let tm' := TaskMaster.saveTask uuid nowU nowC nowT p1 tm in
   tasks tm' =
     <[i := TaskMaster.mkTask (Some i) (TaskMaster.title p1)
              (TaskMaster.description p1) (TaskMaster.priority p1)
              (TaskMaster.due p1) (Some nowC) (Some nowU)
              (TaskMaster.columnId p1)]> (tasks tm) ∧
   order tm' =
     Js.set "todo" (i :: default [] (Js.get "todo" (order tm))) (order tm)) ∧
  (let v2' := BoardV2.saveTask uuid nowU nowC nowT p2 v2 in
   tasks v2' =
     <[i := BoardV2.mkTask (Some i) (BoardV2.title p2)
              (BoardV2.description p2) (BoardV2.priority p2) (BoardV2.due p2)
              (BoardV2.tag p2) (Some (Js.or_else (BoardV2.status p2) "todo"))
              (Some nowC) (Some nowU)]> (tasks v2) ∧
   order v2' =
     Js.set "todo" (i :: default [] (Js.get "todo" (order v2))) (order v2)).
Proof.
  intros Hi Hp1 Htm Hp2 Hv2. split; simpl.
  - unfold TaskMaster.saveTask. rewrite Hp1, Htm. simpl.
    rewrite decide_False by done. rewrite Htm. simpl.
    rewrite andb_false_r. simpl. split; [|done]. f_equal.
    unfold TaskMaster.stamped, TaskMaster.spread. simpl.
    by rewrite !(right_id None (∪)).
  - unfold BoardV2.saveTask. rewrite Hp2, Hv2. simpl.
    rewrite decide_False by done. rewrite Hv2. simpl.
    rewrite andb_false_r. simpl. split; [|done]. f_equal.
    unfold BoardV2.stamped, BoardV2.spread. simpl.
    by rewrite !(right_id None (∪)).
Qed.

Lemma C7_save_with_unknown_id_creates_the_task_witness :
  order (TaskMaster.saveTask "u1" "t1" "t1" "t1" Examples.tmGhostEdit
           (TaskMaster.emptyBoard "t0"))
    = [("todo", ["ghost"]); ("inprogress", []); ("done", [])].
Proof.
  refine (proj2 (proj1 (C7_save_with_unknown_id_creates_the_task
                          "u1" "t1" "t1" "t1" "ghost" Examples.tmGhostEdit
                          (BoardV2.mkTask (Some "ghost") (Some "card") None
                             None None None None None None)
                          (TaskMaster.emptyBoard "t0")
                          (BoardV2.emptyBoard "t0") _ _ _ _ _)));
    done.
Defined.

(** C7 fails as stated: on the empty board, saving under an unknown id
    changes the board. *)
Lemma C7_save_with_unknown_id_changes_board :
  TaskMaster.saveTask "u1" "t1" "t1" "t1" Examples.tmGhostEdit
                      (TaskMaster.emptyBoard "t0")
    ≠ TaskMaster.emptyBoard "t0".
Proof.
  intros H. apply (f_equal order) in H. vm_compute in H. discriminate H.
Qed.


(** ** Creating a task *)

(** The title check of the modal edition lives in the form: a title that
    trims to nothing gets an alert and [saveTask] is not called. *)
Lemma TaskMaster_form_refuses_blank_title (trim toISOString : string → string)
    uuid nowU nowC nowT initial title description priority due
    (board : Board TaskMaster.Task) :
  trim title = EmptyString →
  TaskMaster.submit trim toISOString initial title description priority due
    = TaskMaster.Alert "Title is required" ∧
  TaskMaster.submitAndSave trim toISOString uuid nowU nowC nowT initial title
                           description priority due board = board.
Proof.
  intros H. unfold TaskMaster.submitAndSave, TaskMaster.submit.
  by rewrite decide_True.
Qed.

(** C8 (as amended): a create request without a title, or with an empty
    one, does not fail.  [newTask] substitutes the title "New task";
    [addTask] stores such a task (priority medium, empty description,
    column todo) and puts its id at the head of the todo order list; and
    the modal edition's [saveTask] stores the title it is given. *)
Theorem C8_empty_title_is_defaulted_not_refused uuid nowC nowU nowT
    (p1 p3 : TaskMaster.Task) (p2 : TaskDragMaster.Task)
    (tdm : Board TaskDragMaster.Task) (tm : Board TaskMaster.Task) :
  TaskMaster.title p1 = None ∨ TaskMaster.title p1 = Some EmptyString →
  TaskDragMaster.title p2 = None ∨ TaskDragMaster.title p2 = Some EmptyString →
  TaskMaster.taskId p3 = None →
  tasks tm !! uuid = None →
  TaskMaster.title (TaskMaster.newTask uuid nowC nowU p1) = Some "New task" ∧
  TaskDragMaster.title (TaskDragMaster.newTask uuid nowC nowU p2)
    = Some "New task" ∧
  (let tdm' := TaskDragMaster.addTask uuid nowC nowU nowT tdm in
   tasks tdm' !! uuid
     = Some (TaskDragMaster.mkTask (Some uuid) (Some "New task")
               (Some EmptyString) (Some "medium") (Some EmptyString)
               (Some nowC) (Some nowU) (Some "todo")) ∧
   Js.get "todo" (order tdm')
     = Some (uuid :: default [] (Js.get "todo" (order tdm)))) ∧
  (let tm' := TaskMaster.saveTask uuid nowU nowC nowT p3 tm in
   (tasks tm' !! uuid ≫= TaskMaster.title) = TaskMaster.title p3 ∧
   Js.get "todo" (order tm')
     = Some (uuid :: default [] (Js.get "todo" (order tm)))).
Proof.
  intros H1 H2 H3 H4. split_and!.
  - simpl. by destruct H1 as [-> | ->].
  - simpl. by destruct H2 as [-> | ->].
  - simpl. split; [by rewrite lookup_insert_eq | by rewrite get_set_eq].
  - unfold TaskMaster.saveTask. rewrite H3. simpl. rewrite H4. simpl. split.
    + rewrite lookup_insert_eq. simpl. apply (right_id None (∪)).
    + by rewrite get_set_eq.
Qed.

Lemma C8_empty_title_is_defaulted_not_refused_witness :
  TaskMaster.title
    (TaskMaster.newTask "u1" "t1" "t1"
       (TaskMaster.mkTask None (Some EmptyString) None None None None None None))
    = Some "New task".
Proof.
  refine (proj1 (C8_empty_title_is_defaulted_not_refused
                   "u1" "t1" "t1" "t1"
                   (TaskMaster.mkTask None (Some EmptyString) None None None
                                      None None None)
                   (TaskMaster.mkTask None (Some EmptyString) None None None
                                      None None None)
                   TaskDragMaster.noTask
                   (TaskDragMaster.emptyBoard "t0")
                   (TaskMaster.emptyBoard "t0") _ _ _ _));
    [by right | by left | done | done].
Defined.

(** C8 fails as stated: [addTask], whose request carries no title, and
    [saveTask] with an empty title both change the empty board. *)
Lemma C8_create_with_empty_title_changes_board :
  TaskDragMaster.addTask "u1" "t1" "t1" "t1" (TaskDragMaster.emptyBoard "t0")
    ≠ TaskDragMaster.emptyBoard "t0" ∧
  TaskMaster.saveTask "u1" "t1" "t1" "t1"
      (TaskMaster.mkTask None (Some EmptyString) (Some EmptyString)
                         (Some "medium") (Some EmptyString) None None
                         (Some "todo"))
      (TaskMaster.emptyBoard "t0")
    ≠ TaskMaster.emptyBoard "t0".
Proof.
  split; intros H; apply (f_equal order) in H; vm_compute in H;
    discriminate H.
Qed.


(** * Further properties of the handlers *)

(** ** Counting occurrences *)

Section Counting.
Implicit Types (x id k : string) (l : list string) (o : Js.obj (list string)).

Lemma occurrences_listed id k l o :
  occurrences id ((k, l) :: o) = listed id l + occurrences id o.
Proof. reflexivity. Qed.

Lemma listed_app x l1 l2 : listed x (l1 ++ l2) = listed x l1 + listed x l2.
Proof. unfold listed. by rewrite filter_app, length_app. Qed.

Lemma listed_cons x y l :
  listed x (y :: l) = (if decide (y = x) then 1 else 0) + listed x l.
Proof. unfold listed. rewrite filter_cons. by case_decide. Qed.

Lemma listed_elem_of x l : x ∈ l ↔ 1 ≤ listed x l.
Proof.
  split; [apply filter_eq_nonempty |].
  unfold listed. intros H.
  destruct (filter (λ y, y = x) l) as [|y l'] eqn:E; [simpl in H; lia |].
  assert (y ∈ filter (λ y, y = x) l) as Hy by (rewrite E; left).
  apply list_elem_of_filter in Hy as [-> ?]. done.
Qed.

Lemma listed_without_ne x id l : x ≠ id → listed x (Js.without id l) = listed x l.
Proof.
  intros Hne. unfold listed, Js.without. f_equal.
  induction l as [|y l IH]; [done |].
  rewrite !filter_cons. repeat case_decide; subst; simpl;
    rewrite ?filter_cons; repeat case_decide; try done; by rewrite IH.
Qed.

Lemma listed_without_eq id l : listed id (Js.without id l) = 0.
Proof.
  destruct (listed id (Js.without id l)) eqn:E; [done |].
  assert (id ∈ Js.without id l) as H by (apply listed_elem_of; lia).
  apply without_spec in H. tauto.
Qed.

Lemma without_absent id l : id ∉ l → Js.without id l = l.
Proof.
  intros H. unfold Js.without. induction l as [|y l IH]; [done |].
  apply not_elem_of_cons in H as [Hy Hl].
  rewrite filter_cons, decide_True by congruence. by rewrite IH.
Qed.

Lemma listed_push x a l :
  listed x (Js.push a l) = listed x l + (if decide (a = x) then 1 else 0).
Proof. unfold Js.push. rewrite listed_app, listed_cons. unfold listed. simpl. lia. Qed.

(** Inserting without deleting adds the items and keeps the rest. *)
Lemma listed_splice_insert x (s : Z) (items l : list string) :
  listed x (Js.splice s 0 items l) = listed x l + listed x items.
Proof.
  unfold Js.splice. rewrite Nat.add_0_r.
  set (n := Z.to_nat _).
  transitivity (listed x (take n l ++ drop n l) + listed x items);
    [rewrite !listed_app; lia | by rewrite take_drop].
Qed.

(** Writing a list under a key trades the old list of that key for the
    new one. *)
Lemma occurrences_set x k l o :
  occurrences x (Js.set k l o) + listed x (default [] (Js.get k o))
    = occurrences x o + listed x l.
Proof.
  induction o as [|[k' v] o IH]; simpl.
  - rewrite occurrences_listed. unfold occurrences, listed. simpl. lia.
  - destruct (decide (k = k')) as [->|Hne]; simpl.
    + rewrite !occurrences_listed. lia.
    + rewrite !occurrences_listed. lia.
Qed.
End Counting.

(** ** Deleting, continued *)

Lemma filtered_entry_set id k l (o acc : Js.obj (list string)) :
  Forall2 (filtered_entry id) o acc →
  Js.get k acc = Some l →
  Forall2 (filtered_entry id) o (Js.set k (Js.without id l) acc).
Proof.
  induction 1 as [|e e' o acc [Hk Hv] Hrest IH]; [done |].
  destruct e as [k0 v0], e' as [k1 v1]. simpl in *. subst k1.
  destruct (decide (k = k0)) as [->|Hne].
  - intros [= ->]. constructor; [|done]. split; [done |]. simpl.
    destruct Hv as [->| ->]; [by right | right; apply without_idemp].
  - intros Hl. constructor; [by split | by apply IH].
Qed.

Lemma filterAll_entries id (o : Js.obj (list string)) :
  Forall2 (filtered_entry id) o (BoardV2.filterAll id o).
Proof.
  unfold BoardV2.filterAll.
  assert (H : Forall2 (filtered_entry id) o o).
  { induction o as [|e o IH]; constructor; [by split; [|left] | done]. }
  revert H. generalize o at 2 4 as acc. generalize (Js.keys o) as ks.
  induction ks as [|k ks IH]; intros acc H; simpl; [done |].
  apply IH. destruct (Js.get k acc) eqn:E; [|done].
  by apply filtered_entry_set.
Qed.

Lemma occurrences_filtered x id (o o' : Js.obj (list string)) :
  x ≠ id → Forall2 (filtered_entry id) o o' →
  occurrences x o' = occurrences x o.
Proof.
  intros Hne. induction 1 as [|[k v] [k' v'] o o' [_ Hv] _ IH]; [done |].
  rewrite !occurrences_listed, IH. simpl in Hv.
  destruct Hv as [->| ->]; [done | by rewrite listed_without_ne].
Qed.

(** X1: deleting is idempotent in all three editions.  Once a delete has
    gone through (or found nothing to delete), a second delete of the
    same id returns the board it is given, timestamp included. *)
Theorem deleteTask_twice (confirmed : bool) (now now' id : string)
    (tm : Board TaskMaster.Task) (tdm : Board TaskDragMaster.Task)
    (v2 : Board BoardV2.Task) :
  TaskMaster.deleteTask confirmed now' id (TaskMaster.deleteTask true now id tm)
    = TaskMaster.deleteTask true now id tm ∧
  TaskDragMaster.deleteTask now' id (TaskDragMaster.deleteTask now id tdm)
    = TaskDragMaster.deleteTask now id tdm ∧
  BoardV2.deleteTask confirmed now' id (BoardV2.deleteTask true now id v2)
    = BoardV2.deleteTask true now id v2.
Proof.
  assert (H1 : tasks (TaskMaster.deleteTask true now id tm) !! id = None).
  { unfold TaskMaster.deleteTask. destruct (tasks tm !! id) eqn:E; simpl;
      [apply lookup_delete_eq | done]. }
  assert (H2 : tasks (TaskDragMaster.deleteTask now id tdm) !! id = None).
  { unfold TaskDragMaster.deleteTask. destruct (tasks tdm !! id) eqn:E; simpl;
      [apply lookup_delete_eq | done]. }
  assert (H3 : tasks (BoardV2.deleteTask true now id v2) !! id = None).
  { unfold BoardV2.deleteTask. simpl. destruct (tasks v2 !! id) eqn:E; simpl;
      [apply lookup_delete_eq | done]. }
  split_and!.
  - unfold TaskMaster.deleteTask at 1. by rewrite H1.
  - unfold TaskDragMaster.deleteTask at 1. by rewrite H2.
  - unfold BoardV2.deleteTask at 1. rewrite H3. by destruct confirmed.
Qed.

Section DeleteInvariant.
Context {T : Type} (col : T → option string).

(** Filtering one order list keeps the invariant for the tasks that
    remain. *)
Lemma board_inv_delete_one_column id colId now (b : Board T) :
  board_inv col b →
  board_inv col
    (withState b (delete id (tasks b))
       (Js.set colId (Js.without id (default [] (Js.get colId (order b))))
               (order b)) now).
Proof.
  intros Hinv x t Hx. simpl in *.
  apply lookup_delete_Some in Hx as [Hne Hx].
  destruct (Hinv x t Hx) as [Hocc (c & l & Hc & Hl & Hin)]. split.
  - pose proof (occurrences_set x colId
      (Js.without id (default [] (Js.get colId (order b)))) (order b)) as H.
    rewrite listed_without_ne in H by done. lia.
  - exists c. rewrite get_set. case_decide as Hk.
    + subst c. rewrite Hl. simpl. eexists. split_and!; [done | done |].
      apply without_spec. by split.
    + by exists l.
Qed.
End DeleteInvariant.

(** X2: deleting a task keeps the data-model invariant, in all three
    editions: every task that remains is still listed exactly once, in
    the list of its own column. *)
Theorem deleteTask_keeps_invariant (confirmed : bool) (now id : string)
    (tm : Board TaskMaster.Task) (tdm : Board TaskDragMaster.Task)
    (v2 : Board BoardV2.Task) :
  board_inv TaskMaster.columnId tm →
  board_inv TaskDragMaster.columnId tdm →
  board_inv BoardV2.status v2 →
  board_inv TaskMaster.columnId (TaskMaster.deleteTask confirmed now id tm) ∧
  board_inv TaskDragMaster.columnId (TaskDragMaster.deleteTask now id tdm) ∧
  board_inv BoardV2.status (BoardV2.deleteTask confirmed now id v2).
Proof.
  intros H1 H2 H3. split_and!.
  - unfold TaskMaster.deleteTask. destruct (tasks tm !! id); [|done].
    destruct confirmed; simpl; [|done].
    by apply board_inv_delete_one_column.
  - unfold TaskDragMaster.deleteTask. destruct (tasks tdm !! id); [|done].
    by apply board_inv_delete_one_column.
  - unfold BoardV2.deleteTask. destruct confirmed; simpl; [|done].
    destruct (tasks v2 !! id) as [_t|]; [|done].
    intros x t Hx. simpl in *.
    apply lookup_delete_Some in Hx as [Hne Hx].
    destruct (H3 x t Hx) as [Hocc (c & l & Hc & Hl & Hin)]. split.
    + rewrite (occurrences_filtered x id (order v2)); [done | done |].
      apply filterAll_entries.
    + exists c, (Js.without id l). split_and!; [done | |].
      * by rewrite get_filterAll, Hl.
      * apply without_spec. by split.
Qed.

Lemma deleteTask_keeps_invariant_witness :
  board_inv BoardV2.status
    (BoardV2.deleteTask true "t1" "A" Examples.v2TwoColumns).
Proof.
  refine (proj2 (proj2 (deleteTask_keeps_invariant true "t1" "A"
            Examples.tmTwoColumns Examples.tdmTwoColumns Examples.v2TwoColumns
            _ _ _))); by apply board_ok_spec; vm_compute.
Defined.

(** ** What no request changes *)

Section KeptKeys.
Implicit Types (o : Js.obj (list string)) (k : string).

Lemma set_keeps_key k k' (l : list string) o :
  is_Some (Js.get k o) → is_Some (Js.get k (Js.set k' l o)).
Proof. intros H. rewrite get_set. by case_decide. Qed.

Lemma filterAll_keeps_key id k o :
  is_Some (Js.get k o) → is_Some (Js.get k (BoardV2.filterAll id o)).
Proof. intros [l Hl]. rewrite get_filterAll, Hl. by eexists. Qed.
End KeptKeys.

(** The part of a board that stays across a request: its id, name and
    column set, and every key of [order]. *)
Lemma BoardV2_apply_keeps r (b : Board BoardV2.Task) :
  same_frame b (BoardV2.apply r b) ∧
  ∀ k, is_Some (Js.get k (order b)) →
       is_Some (Js.get k (order (BoardV2.apply r b))).
Proof.
  destruct r as [uuid nowU nowC nowT p | confirmed now id | nowU nowT a over];
    simpl.
  - unfold BoardV2.saveTask. case_match; simpl; (split; [done |]); [done |].
    intros k. apply set_keeps_key.
  - unfold BoardV2.deleteTask. destruct confirmed; simpl; [|done].
    destruct (tasks b !! id); [|done]. simpl. split; [done |].
    intros k. apply filterAll_keeps_key.
  - unfold BoardV2.handleDragEnd. destruct over as [overId|]; [|done].
    simpl. split; [done |]. intros k Hk. by do 2 apply set_keeps_key.
Qed.

Lemma TaskMaster_apply_keeps r (b : Board TaskMaster.Task) :
  same_frame b (TaskMaster.apply r b) ∧
  ∀ k, is_Some (Js.get k (order b)) →
       is_Some (Js.get k (order (TaskMaster.apply r b))).
Proof.
  destruct r as [uuid nowU nowC nowT p | confirmed now id | nowU nowT a over];
    simpl.
  - unfold TaskMaster.saveTask. case_match; simpl; (split; [done |]); [done |].
    intros k. apply set_keeps_key.
  - unfold TaskMaster.deleteTask. destruct (tasks b !! id); [|done].
    destruct confirmed; simpl; [|done]. split; [done |].
    intros k. apply set_keeps_key.
  - unfold TaskMaster.handleDragEnd. destruct over as [overId|]; [|done].
    simpl. split; [done |]. intros k Hk. by do 2 apply set_keeps_key.
Qed.

(** X3: whatever sequence of save, delete and drag requests is applied,
    in the modal and in the calendar edition, the board keeps its id, its
    name and its list of columns, and no key of [order] is ever dropped
    (lists may change, and keys may be added). *)
Theorem run_keeps_columns_and_order_keys
    (rs1 : list TaskMaster.Request) (rs2 : list BoardV2.Request)
    (tm : Board TaskMaster.Task) (v2 : Board BoardV2.Task) :
  (same_frame tm (TaskMaster.run rs1 tm) ∧
   ∀ k, is_Some (Js.get k (order tm)) →
        is_Some (Js.get k (order (TaskMaster.run rs1 tm)))) ∧
  (same_frame v2 (BoardV2.run rs2 v2) ∧
   ∀ k, is_Some (Js.get k (order v2)) →
        is_Some (Js.get k (order (BoardV2.run rs2 v2)))).
Proof.
  split.
  - revert tm. induction rs1 as [|r rs IH]; intros tm; [by repeat split |].
    unfold TaskMaster.run in *. simpl.
    destruct (TaskMaster_apply_keeps r tm) as [(F1 & F2 & F3) K].
    destruct (IH (TaskMaster.apply r tm)) as [(G1 & G2 & G3) K'].
    split; [repeat split; congruence |]. intros k Hk. by apply K', K.
  - revert v2. induction rs2 as [|r rs IH]; intros v2; [by repeat split |].
    unfold BoardV2.run in *. simpl.
    destruct (BoardV2_apply_keeps r v2) as [(F1 & F2 & F3) K].
    destruct (IH (BoardV2.apply r v2)) as [(G1 & G2 & G3) K'].
    split; [repeat split; congruence |]. intros k Hk. by apply K', K.
Qed.

(** ** Dropping a card: what every drop does and does not do *)

Section MoreListFacts.
Implicit Types (x y : string) (l : list string).

Lemma indexOf_app_found x l1 l2 :
  x ∉ l1 → Js.indexOf x (l1 ++ x :: l2) = Z.of_nat (length l1).
Proof.
  induction l1 as [|y l1 IH]; simpl.
  - intros _. by rewrite decide_True.
  - intros [Hy Hl]%not_elem_of_cons. rewrite decide_False by congruence.
    rewrite IH by done. case_decide; lia.
Qed.

Lemma splice_insert_perm {A} (s : Z) (a : A) (l : list A) :
  Js.splice s 0 [a] l ≡ₚ a :: l.
Proof.
  unfold Js.splice. rewrite Nat.add_0_r. set (n := Z.to_nat _).
  rewrite <- (take_drop n l) at 3. simpl.
  by rewrite Permutation_middle.
Qed.

Lemma splice_remove_perm x l :
  x ∈ l → x :: Js.splice (Js.indexOf x l) 1 [] l ≡ₚ l.
Proof.
  intros Hin. destruct (indexOf_lookup x l Hin) as [Hl H0].
  set (i := Z.to_nat (Js.indexOf x l)) in *.
  assert (Hlt : i < length l) by (by eapply lookup_lt_Some).
  replace (Js.indexOf x l) with (Z.of_nat i) by lia.
  rewrite splice_at by lia. simpl. replace (i + 1) with (S i) by lia.
  rewrite Permutation_middle. by rewrite take_drop_middle.
Qed.

Lemma listed_perm x l l' : l ≡ₚ l' → listed x l = listed x l'.
Proof. intros H. unfold listed. by rewrite H. Qed.
End MoreListFacts.

(** X4: in all three editions a drop that has a target leaves the
    dragged card consistent: its record names the destination column the
    handler computed, and the order list under that column's key holds
    the card. *)
Theorem drop_lands_in_destination nowU nowT a overId
    (tm : Board TaskMaster.Task) (tdm : Board TaskDragMaster.Task)
    (v2 : Board BoardV2.Task) :
  (let toColId :=
     TaskMaster.toColumn tm (tasks tm !! a ≫= TaskMaster.columnId) overId in
   let tm' := TaskMaster.handleDragEnd nowU nowT a (Some overId) tm in
   (tasks tm' !! a ≫= TaskMaster.columnId) = toColId ∧
   (tasks tm' !! a ≫= TaskMaster.updatedAt) = Some nowU ∧
   ∃ l, Js.get (Js.key toColId) (order tm') = Some l ∧ a ∈ l) ∧
  (let toColId :=
     if bool_decide (is_Some (Js.get overId (order tdm))) then Some overId
     else tasks tdm !! a ≫= TaskDragMaster.columnId in
   let tdm' := TaskDragMaster.handleDragEnd nowU nowT a (Some overId) tdm in
   (tasks tdm' !! a ≫= TaskDragMaster.columnId) = toColId ∧
   (tasks tdm' !! a ≫= TaskDragMaster.updatedAt) = Some nowU ∧
   ∃ l, Js.get (Js.key toColId) (order tdm') = Some l ∧ a ∈ l) ∧
  (let destCol :=
     BoardV2.destColumn v2 (BoardV2.sourceColumn a (order v2)) overId in
   let v2' := BoardV2.handleDragEnd nowU nowT a (Some overId) v2 in
   (tasks v2' !! a ≫= BoardV2.status) = destCol ∧
   (tasks v2' !! a ≫= BoardV2.updatedAt) = Some nowU ∧
   ∃ l, Js.get (Js.key destCol) (order v2') = Some l ∧ a ∈ l).
Proof.
  split_and!; simpl.
  - unfold TaskMaster.handleDragEnd. simpl. rewrite lookup_insert_eq. simpl.
    split_and!; [done | done |]. rewrite get_set_eq. eexists. split; [done |].
    card_listed.
  - unfold TaskDragMaster.handleDragEnd. simpl. rewrite lookup_insert_eq. simpl.
    split_and!; [done | done |]. rewrite get_set_eq. eexists. split; [done |].
    card_listed.
  - unfold BoardV2.handleDragEnd. simpl. rewrite lookup_insert_eq. simpl.
    split_and!; [done | done |]. rewrite get_set_eq. eexists. split; [done |].
    card_listed.
Qed.

(** X5: in all three editions a drop changes no task record but the
    dragged card's, and no order list but those under the source and
    destination keys. *)
Theorem drop_touches_nothing_else nowU nowT a overId
    (tm : Board TaskMaster.Task) (tdm : Board TaskDragMaster.Task)
    (v2 : Board BoardV2.Task) :
  (let fromColId := tasks tm !! a ≫= TaskMaster.columnId in
   let toColId := TaskMaster.toColumn tm fromColId overId in
   let tm' := TaskMaster.handleDragEnd nowU nowT a (Some overId) tm in
   (∀ j, j ≠ a → tasks tm' !! j = tasks tm !! j) ∧
   (∀ k, k ≠ Js.key fromColId → k ≠ Js.key toColId →
         Js.get k (order tm') = Js.get k (order tm))) ∧
  (let fromColId := tasks tdm !! a ≫= TaskDragMaster.columnId in
   let toColId :=
     if bool_decide (is_Some (Js.get overId (order tdm))) then Some overId
     else fromColId in
   let tdm' := TaskDragMaster.handleDragEnd nowU nowT a (Some overId) tdm in
   (∀ j, j ≠ a → tasks tdm' !! j = tasks tdm !! j) ∧
   (∀ k, k ≠ Js.key fromColId → k ≠ Js.key toColId →
         Js.get k (order tdm') = Js.get k (order tdm))) ∧
  (let sourceCol := BoardV2.sourceColumn a (order v2) in
   let destCol := BoardV2.destColumn v2 sourceCol overId in
   let v2' := BoardV2.handleDragEnd nowU nowT a (Some overId) v2 in
   (∀ j, j ≠ a → tasks v2' !! j = tasks v2 !! j) ∧
   (∀ k, k ≠ Js.key sourceCol → k ≠ Js.key destCol →
         Js.get k (order v2') = Js.get k (order v2))).
Proof.
  split_and!; simpl; (split;
    [ intros j Hj; by rewrite lookup_insert_ne
    | intros k H1 H2; by rewrite !get_set_ne ]).
Qed.

Section RemoveFirst.
Implicit Types (x : string) (l : list string).

(** Removing the first occurrence is removing all of them when there is
    at most one. *)
Lemma remove_first_without x l :
  listed x l ≤ 1 →
  (if decide (Js.indexOf x l ≠ (-1)%Z) then Js.splice (Js.indexOf x l) 1 [] l
   else l) = Js.without x l.
Proof.
  intros Hone. case_decide as Hidx.
  - assert (Hin : x ∈ l) by (by destruct (decide (x ∈ l)) as [|?%indexOf_absent]).
    apply list_elem_of_split_l in Hin as (l1 & l2 & -> & Hl1).
    rewrite listed_app, listed_cons, decide_True in Hone by done.
    assert (Hl2 : x ∉ l2) by (rewrite listed_elem_of; lia).
    rewrite indexOf_app_found by done.
    rewrite splice_at by (rewrite length_app; simpl; lia).
    rewrite take_app_length.
    replace (drop (length l1 + 1) (l1 ++ x :: l2)) with l2
      by (rewrite (cons_middle x l1 l2), app_assoc;
          by rewrite drop_app_length' by (rewrite length_app; simpl; lia)).
    simpl.
    unfold Js.without. rewrite filter_app, filter_cons, decide_False by tauto.
    fold (Js.without x l1) (Js.without x l2).
    by rewrite !without_absent.
  - assert (Hout : x ∉ l) by (apply indexOf_absent; lia).
    by rewrite without_absent.
Qed.
End RemoveFirst.





(** X8: reordering inside one column in the calendar edition (the card
    and the target card are in the same column).  The column keeps the
    same cards, each as often as before; a card dragged upwards lands
    immediately before the target, and a card dragged downwards lands
    immediately after it, because the target's index is read before the
    dragged card is taken out. *)
Theorem BoardV2_reorder_within_column nowU nowT a overId c l tk
    (board : Board BoardV2.Task) :
  BoardV2.sourceColumn a (order board) = Some c →
  Js.get c (order board) = Some l →
  Js.get overId (order board) = None →
  tasks board !! overId = Some tk →
  BoardV2.status tk = Some c →
  let board' := BoardV2.handleDragEnd nowU nowT a (Some overId) board in
  (∃ l', Js.get c (order board') = Some l' ∧ l' ≡ₚ l) ∧
  (∀ l1 l2 l3, l = l1 ++ overId :: l2 ++ a :: l3 →
     a ≠ overId → a ∉ l1 → a ∉ l2 → overId ∉ l1 →
     Js.get c (order board') = Some (l1 ++ a :: overId :: l2 ++ l3)) ∧
  (∀ l1 l2 l3, l = l1 ++ a :: l2 ++ overId :: l3 →
     a ≠ overId → a ∉ l1 → overId ∉ l1 → overId ∉ l2 →
     Js.get c (order board') = Some (l1 ++ l2 ++ overId :: a :: l3)).
Proof.
  intros Hsrc Hl Hk Ht Hst board'. subst board'.
  destruct (sourceColumn_Some _ _ _ Hsrc) as (l0 & Hl0 & Hin).
  assert (l0 = l) as -> by congruence.
  assert (Hdst : BoardV2.destColumn board (Some c) overId = Some c).
  { unfold BoardV2.destColumn. rewrite Hk, Ht.
    rewrite bool_decide_eq_false_2; [done | by intros [? ?]]. }
  assert (Hres : Js.get c (order (BoardV2.handleDragEnd nowU nowT a
                                    (Some overId) board))
    = Some (Js.splice (Js.indexOf overId l) 0 [a]
              (Js.splice (Js.indexOf a l) 1 [] l))).
  { unfold BoardV2.handleDragEnd. rewrite Hsrc, Hdst, Ht. simpl.
    rewrite Hl. simpl.
    rewrite (bool_decide_eq_true_2 (Some c = Some c)) by done. simpl.
    by rewrite get_set_eq. }
  rewrite Hres. split_and!.
  - eexists. split; [done |].
    rewrite splice_insert_perm. by apply splice_remove_perm.
  - intros l1 l2 l3 -> Hne H1 H2 H3. f_equal.
    rewrite indexOf_app_found by done.
    replace (l1 ++ overId :: l2 ++ a :: l3)
      with ((l1 ++ overId :: l2) ++ a :: l3) at 1 2
      by (by rewrite <- app_assoc).
    rewrite indexOf_app_found
      by (rewrite elem_of_app, elem_of_cons; tauto).
    rewrite (splice_at (length (l1 ++ overId :: l2)) 1)
      by (rewrite !length_app; simpl; lia).
    rewrite take_app_length.
    replace (drop (length (l1 ++ overId :: l2) + 1)
                  ((l1 ++ overId :: l2) ++ a :: l3)) with l3
      by (rewrite (cons_middle a), app_assoc;
          by rewrite drop_app_length' by (rewrite !length_app; simpl; lia)).
    simpl. rewrite <- app_assoc. simpl.
    rewrite splice_at by (rewrite !length_app; simpl; lia).
    rewrite Nat.add_0_r, take_app_length, drop_app_length. done.
  - intros l1 l2 l3 -> Hne H1 H2 H3. f_equal.
    rewrite (indexOf_app_found a) by done.
    replace (l1 ++ a :: l2 ++ overId :: l3)
      with ((l1 ++ a :: l2) ++ overId :: l3) at 1
      by (by rewrite <- app_assoc).
    rewrite indexOf_app_found
      by (rewrite elem_of_app, elem_of_cons; intros [?|[?|?]]; congruence).
    rewrite (splice_at (length l1) 1) by (rewrite !length_app; simpl; lia).
    rewrite take_app_length.
    replace (drop (length l1 + 1) (l1 ++ a :: l2 ++ overId :: l3))
      with (l2 ++ overId :: l3)
      by (rewrite (cons_middle a), app_assoc;
          by rewrite drop_app_length' by (rewrite !length_app; simpl; lia)).
    simpl.
    replace (l1 ++ l2 ++ overId :: l3) with ((l1 ++ l2 ++ [overId]) ++ l3)
      by (by rewrite <- !app_assoc).
    rewrite splice_at by (rewrite !length_app; simpl; lia).
    rewrite Nat.add_0_r.
    rewrite take_app_length', drop_app_length'
      by (rewrite !length_app; simpl; lia).
    rewrite <- !app_assoc. done.
Qed.

Lemma BoardV2_reorder_within_column_witness :
  Js.get "todo"
    (order (BoardV2.handleDragEnd "t1" "t2" "A" (Some "C") Examples.v2ABC))
    = Some ([] ++ ["B"] ++ "C" :: "A" :: []).
Proof.
  refine (proj2 (proj2 (BoardV2_reorder_within_column "t1" "t2" "A" "C" "todo"
            ["A"; "B"; "C"] (Examples.v2Card "C" "todo") Examples.v2ABC
            _ _ _ _ _)) [] ["B"] [] _ _ _ _ _);
    try reflexivity; try (by vm_compute); try apply not_elem_of_nil.
  apply not_elem_of_cons. split; [done | apply not_elem_of_nil].
Defined.

(** ** Drops that keep the invariant *)

(** The invariant after a move of card [a] from column [cs] to column
    [cd], for any destination list that holds the right cards. *)
Lemma board_inv_move (b : Board BoardV2.Task) a ta cs cd ls ld destOrder
    nowU nowT :
  board_inv BoardV2.status b →
  tasks b !! a = Some ta →
  Js.get cs (order b) = Some ls → a ∈ ls →
  Js.get cd (order b) = Some ld →
  (∀ x, listed x destOrder =
        if decide (cs = cd) then listed x ls
        else listed x ld + (if decide (a = x) then 1 else 0)) →
  board_inv BoardV2.status
    (withState b (<[a := BoardV2.moved ta (Some cd) nowU]> (tasks b))
       (Js.set cd destOrder (Js.set cs (Js.without a ls) (order b))) nowT).
Proof.
  intros Hinv Ha Hls Hin Hld Hdest x t Hx. simpl in *.
  pose proof (occurrences_set x cd destOrder
                (Js.set cs (Js.without a ls) (order b))) as E2.
  pose proof (occurrences_set x cs (Js.without a ls) (order b)) as E1.
  rewrite Hls in E1. simpl in E1. rewrite get_set in E2.
  specialize (Hdest x).
  destruct (decide (x = a)) as [->|Hne].
  - rewrite lookup_insert_eq in Hx. injection Hx as <-.
    destruct (Hinv a ta Ha) as [Hocc _].
    rewrite listed_without_eq in E1.
    assert (1 ≤ listed a ls) by (by apply listed_elem_of).
    rewrite (decide_True (P := a = a)) in Hdest by done.
    split.
    + destruct (decide (cs = cd)) as [->|Hc]; simpl in E2.
      * rewrite listed_without_eq in E2. lia.
      * rewrite Hld in E2. simpl in E2. lia.
    + exists cd, destOrder. split_and!; [done | apply get_set_eq |].
      apply listed_elem_of. destruct (decide (cs = cd)); lia.
  - rewrite lookup_insert_ne in Hx by done.
    destruct (Hinv x t Hx) as [Hocc (c & l & Hc & Hl & Hxl)].
    rewrite listed_without_ne in E1 by done.
    rewrite (decide_False (P := a = x)) in Hdest by done.
    apply listed_elem_of in Hxl.
    split.
    + destruct (decide (cs = cd)) as [->|Hcd]; simpl in E2.
      * rewrite listed_without_ne in E2 by done. lia.
      * rewrite Hld in E2. simpl in E2. lia.
    + exists c. rewrite !get_set.
      destruct (decide (cd = c)) as [->|Hcd].
      * exists destOrder. split_and!; [done | done |].
        apply listed_elem_of.
        destruct (decide (cs = c)) as [->|Hcs]; simplify_eq; lia.
      * destruct (decide (cs = c)) as [->|Hcs]; simplify_eq.
        -- eexists. split_and!; [done | done |].
           apply listed_elem_of. rewrite listed_without_ne by done. lia.
        -- exists l. split_and!; [done | done |]. by apply listed_elem_of.
Qed.

(** X9: in the calendar edition, on a board that satisfies the invariant,
    dropping a card on another card, or on the container of a column
    other than its own, gives a board that satisfies the invariant
    again. *)
Theorem BoardV2_drop_keeps_invariant nowU nowT a overId ta
    (board : Board BoardV2.Task) :
  board_inv BoardV2.status board →
  tasks board !! a = Some ta →
  (is_Some (tasks board !! overId) ∧ Js.get overId (order board) = None) ∨
  (is_Some (Js.get overId (order board)) ∧ BoardV2.status ta ≠ Some overId) →
  board_inv BoardV2.status
    (BoardV2.handleDragEnd nowU nowT a (Some overId) board).
Proof.
  intros Hinv Ha Hover.
  destruct (sourceColumn_of_invariant a ta board Hinv Ha) as (cs & Hst & Hsrc).
  destruct (sourceColumn_Some _ _ _ Hsrc) as (ls & Hls & Hin).
  assert (Hpush : ∀ x (m : list string),
            listed x (Js.push a m) = listed x m + (if decide (a = x) then 1 else 0))
    by (intros; apply listed_push).
  assert (Hins : ∀ x i (m : list string),
            listed x (Js.splice i 0 [a] m)
              = listed x m + (if decide (a = x) then 1 else 0)).
  { intros. rewrite listed_splice_insert, listed_cons. unfold listed. simpl. lia. }
  unfold BoardV2.handleDragEnd. rewrite Hsrc, Ha. simpl. rewrite Hls. simpl.
  destruct Hover as [[[tk Htk] Hk] | [[ld Hld] Hcol]].
  - destruct (Hinv overId tk Htk) as [_ (cd & ld & Hcd & Hld & _)].
    assert (Hdst : BoardV2.destColumn board (Some cs) overId = Some cd).
    { unfold BoardV2.destColumn. rewrite Hk, Htk.
      rewrite bool_decide_eq_false_2; [done | by intros [? ?]]. }
    rewrite Hdst, Htk. simpl. rewrite Hld. simpl.
    rewrite andb_true_r.
    apply (board_inv_move board a ta cs cd ls ld); try done.
    intros x. case_bool_decide as Hc.
    + injection Hc as ->. rewrite (decide_True (P := cd = cd)) by done.
      assert (ld = ls) as -> by congruence.
      apply listed_perm. rewrite splice_insert_perm.
      by apply splice_remove_perm.
    + rewrite (decide_False (P := cs = cd)) by (by intros ->).
      case_decide; [apply Hpush | apply Hins].
  - assert (Hdst : BoardV2.destColumn board (Some cs) overId = Some overId).
    { unfold BoardV2.destColumn. rewrite Hld.
      by rewrite bool_decide_eq_true_2 by eauto. }
    rewrite Hdst. simpl. rewrite Hld. simpl.
    assert (Hne : cs ≠ overId) by congruence.
    rewrite (bool_decide_eq_false_2 (Some cs = Some overId)) by congruence.
    simpl.
    apply (board_inv_move board a ta cs overId ls ld); try done.
    intros x. rewrite (decide_False (P := cs = overId)) by done.
    destruct (bool_decide (is_Some (tasks board !! overId)));
      [case_decide |]; first [apply Hpush | apply Hins].
Qed.

Lemma BoardV2_drop_keeps_invariant_witness :
  board_inv BoardV2.status
    (BoardV2.handleDragEnd "t1" "t2" "A" (Some "B") Examples.v2TwoColumns).
Proof.
  refine (BoardV2_drop_keeps_invariant "t1" "t2" "A" "B"
            (Examples.v2Card "A" "todo") Examples.v2TwoColumns _ _ _).
  - by apply board_ok_spec; vm_compute.
  - reflexivity.
  - left. split; [eexists; reflexivity | reflexivity].
Defined.

(** ** Saving a task, continued *)

Section SaveInvariant.
Context {T : Type} (col : T → option string).

(** Storing a new record and putting its id at the head of its column's
    list keeps the invariant, provided the id is new to the board. *)
Lemma board_inv_prepend id t c now (b : Board T) :
  board_inv col b →
  tasks b !! id = None →
  occurrences id (order b) = 0 →
  col t = Some c →
  board_inv col
    (withState b (<[id := t]> (tasks b))
       (Js.set c (id :: default [] (Js.get c (order b))) (order b)) now).
Proof.
  intros Hinv Hnew Hocc Hc x tx Hx. simpl in *.
  pose proof (occurrences_set x c (id :: default [] (Js.get c (order b)))
                (order b)) as E.
  rewrite listed_cons in E.
  destruct (decide (x = id)) as [->|Hne].
  - rewrite lookup_insert_eq in Hx. injection Hx as <-.
    rewrite decide_True in E by done. split; [lia |].
    exists c. eexists. split_and!; [done | apply get_set_eq | left].
  - rewrite lookup_insert_ne in Hx by done.
    destruct (Hinv x tx Hx) as [Hx1 (cx & l & Hcx & Hl & Hin)].
    rewrite decide_False in E by done. split; [lia |].
    exists cx. rewrite get_set. case_decide as Hk.
    + subst cx. rewrite Hl. simpl. eexists. split_and!; [done | done |].
      by right.
    + by exists l.
Qed.

(** Replacing a record by one that names the same column keeps the
    invariant. *)
Lemma board_inv_update id old t now (b : Board T) :
  board_inv col b →
  tasks b !! id = Some old →
  col t = col old →
  board_inv col (withState b (<[id := t]> (tasks b)) (order b) now).
Proof.
  intros Hinv Hold Hc x tx Hx. simpl in *.
  destruct (decide (x = id)) as [->|Hne].
  - rewrite lookup_insert_eq in Hx. injection Hx as <-.
    rewrite Hc. by apply Hinv.
  - rewrite lookup_insert_ne in Hx by done. by apply Hinv.
Qed.
End SaveInvariant.

(** X10: creating a card keeps the invariant when the id drawn for it is
    new to the board and the request asks for the todo column (or, in the
    calendar edition, for none): [saveTask] without an id in the modal
    and calendar editions, [addTask] in the simplified one. *)
Theorem create_keeps_invariant uuid nowU nowC nowT
    (p1 : TaskMaster.Task) (p2 : BoardV2.Task)
    (tm : Board TaskMaster.Task) (tdm : Board TaskDragMaster.Task)
    (v2 : Board BoardV2.Task) :
  board_inv TaskMaster.columnId tm →
  tasks tm !! uuid = None → occurrences uuid (order tm) = 0 →
  TaskMaster.taskId p1 = None → TaskMaster.columnId p1 = Some "todo" →
  board_inv TaskDragMaster.columnId tdm →
  tasks tdm !! uuid = None → occurrences uuid (order tdm) = 0 →
  board_inv BoardV2.status v2 →
  tasks v2 !! uuid = None → occurrences uuid (order v2) = 0 →
  BoardV2.taskId p2 = None → Js.or_else (BoardV2.status p2) "todo" = "todo" →
  board_inv TaskMaster.columnId (TaskMaster.saveTask uuid nowU nowC nowT p1 tm) ∧
  board_inv TaskDragMaster.columnId
    (TaskDragMaster.addTask uuid nowC nowU nowT tdm) ∧
  board_inv BoardV2.status (BoardV2.saveTask uuid nowU nowC nowT p2 v2).
Proof.
  intros I1 N1 O1 Hid1 Hc1 I2 N2 O2 I3 N3 O3 Hid3 Hc3. split_and!.
  - unfold TaskMaster.saveTask. rewrite Hid1. simpl. rewrite N1. simpl.
    apply board_inv_prepend; try done. simpl.
    by rewrite Hc1.
  - unfold TaskDragMaster.addTask, TaskDragMaster.addNew. simpl.
    by apply board_inv_prepend.
  - unfold BoardV2.saveTask. rewrite Hid3. simpl. rewrite N3. simpl.
    apply board_inv_prepend; try done. simpl. by rewrite Hc3.
Qed.

Lemma create_keeps_invariant_witness :
  board_inv BoardV2.status
    (BoardV2.saveTask "A" "t1" "t1" "t1" Examples.v2New
                      (BoardV2.emptyBoard "t0")).
Proof.
  refine (proj2 (proj2 (create_keeps_invariant "A" "t1" "t1" "t1"
            Examples.tmNew Examples.v2New (TaskMaster.emptyBoard "t0")
            (TaskDragMaster.emptyBoard "t0") (BoardV2.emptyBoard "t0")
            _ _ _ _ _ _ _ _ _ _ _ _ _)));
    try reflexivity; by apply board_ok_spec; vm_compute.
Defined.

(** The board an edit returns. *)
Lemma TaskMaster_saveTask_edit_result uuid nowU nowC nowT i
    (p old : TaskMaster.Task) (tm : Board TaskMaster.Task) :
  i ≠ EmptyString →
  TaskMaster.taskId p = Some i → tasks tm !! i = Some old →
  TaskMaster.saveTask uuid nowU nowC nowT p tm =
    withState tm
      (<[i := TaskMaster.mkTask (Some i)
              (TaskMaster.title p ∪ TaskMaster.title old)
              (TaskMaster.description p ∪ TaskMaster.description old)
              (TaskMaster.priority p ∪ TaskMaster.priority old)
              (TaskMaster.due p ∪ TaskMaster.due old)
              (Some (Js.or_else (TaskMaster.createdAt old) nowC))
              (Some nowU)
              (TaskMaster.columnId p ∪ TaskMaster.columnId old)]>
         (tasks tm))
      (order tm) nowT.
Proof.
  intros Hi Hp H. unfold TaskMaster.saveTask. rewrite Hp. simpl.
  rewrite decide_False by done. rewrite H. simpl.
  by rewrite (bool_decide_eq_true_2 (i ≠ EmptyString)) by done.
Qed.

Lemma BoardV2_saveTask_edit_result uuid nowU nowC nowT i
    (p old : BoardV2.Task) (v2 : Board BoardV2.Task) :
  i ≠ EmptyString →
  BoardV2.taskId p = Some i → tasks v2 !! i = Some old →
  BoardV2.saveTask uuid nowU nowC nowT p v2 =
    withState v2
      (<[i := BoardV2.mkTask (Some i)
              (BoardV2.title p ∪ BoardV2.title old)
              (BoardV2.description p ∪ BoardV2.description old)
              (BoardV2.priority p ∪ BoardV2.priority old)
              (BoardV2.due p ∪ BoardV2.due old)
              (BoardV2.tag p ∪ BoardV2.tag old)
              (Some (Js.or_else (BoardV2.status p)
                       (Js.or_else (BoardV2.status old) "todo")))
              (Some (Js.or_else (BoardV2.createdAt old) nowC))
              (Some nowU)]>
         (tasks v2))
      (order v2) nowT.
Proof.
  intros Hi Hp H. unfold BoardV2.saveTask. rewrite Hp. simpl.
  rewrite decide_False by done. rewrite H. simpl.
  by rewrite (bool_decide_eq_true_2 (i ≠ EmptyString)) by done.
Qed.

(** X11: editing an existing card with [saveTask] (modal and calendar
    editions) leaves [order] and every other record as they were.  The
    stored record keeps its id and its non-empty [createdAt], gets a new
    [updatedAt], and takes each field from the request where the request
    has it and from the old record otherwise. *)
Theorem saveTask_edit uuid nowU nowC nowT i
    (p1 old1 : TaskMaster.Task) (p2 old2 : BoardV2.Task)
    (tm : Board TaskMaster.Task) (v2 : Board BoardV2.Task) :
  i ≠ EmptyString →
  TaskMaster.taskId p1 = Some i → tasks tm !! i = Some old1 →
  BoardV2.taskId p2 = Some i → tasks v2 !! i = Some old2 →
  (let tm' := TaskMaster.saveTask uuid nowU nowC nowT p1 tm in
   order tm' = order tm ∧
   tasks tm' =
     <[i := TaskMaster.mkTask (Some i)
              (TaskMaster.title p1 ∪ TaskMaster.title old1)
              (TaskMaster.description p1 ∪ TaskMaster.description old1)
              (TaskMaster.priority p1 ∪ TaskMaster.priority old1)
              (TaskMaster.due p1 ∪ TaskMaster.due old1)
              (Some (Js.or_else (TaskMaster.createdAt old1) nowC))
              (Some nowU)
              (TaskMaster.columnId p1 ∪ TaskMaster.columnId old1)]>
       (tasks tm)) ∧
  (let v2' := BoardV2.saveTask uuid nowU nowC nowT p2 v2 in
   order v2' = order v2 ∧
   tasks v2' =
     <[i := BoardV2.mkTask (Some i)
              (BoardV2.title p2 ∪ BoardV2.title old2)
              (BoardV2.description p2 ∪ BoardV2.description old2)
              (BoardV2.priority p2 ∪ BoardV2.priority old2)
              (BoardV2.due p2 ∪ BoardV2.due old2)
              (BoardV2.tag p2 ∪ BoardV2.tag old2)
              (Some (Js.or_else (BoardV2.status p2)
                       (Js.or_else (BoardV2.status old2) "todo")))
              (Some (Js.or_else (BoardV2.createdAt old2) nowC))
              (Some nowU)]>
       (tasks v2)).
Proof.
  intros Hi Hp1 H1 Hp2 H2. split; simpl.
  - by rewrite (TaskMaster_saveTask_edit_result _ _ _ _ i p1 old1).
  - by rewrite (BoardV2_saveTask_edit_result _ _ _ _ i p2 old2).
Qed.

Lemma saveTask_edit_witness :
  order (TaskMaster.saveTask "u" "t1" "t1" "t1"
           (TaskMaster.mkTask (Some "B") (Some "renamed") None None None None
                              None None)
           Examples.tmTwoColumns)
    = order Examples.tmTwoColumns.
Proof.
  refine (proj1 (proj1 (saveTask_edit "u" "t1" "t1" "t1" "B"
            (TaskMaster.mkTask (Some "B") (Some "renamed") None None None None
                               None None)
            (Examples.tmCard "B" "done")
            (BoardV2.mkTask (Some "B") (Some "renamed") None None None None
                            None None None)
            (Examples.v2Card "B" "done")
            Examples.tmTwoColumns Examples.v2TwoColumns _ _ _ _ _)));
    done.
Defined.

(** X12: an edit that does not ask for another column keeps the
    invariant.  In the modal edition the request names no column or the
    card's own; in the calendar edition likewise for [status], the card's
    recorded status being non-empty. *)
Theorem saveTask_edit_keeps_invariant uuid nowU nowC nowT i
    (p1 old1 : TaskMaster.Task) (p2 old2 : BoardV2.Task)
    (tm : Board TaskMaster.Task) (v2 : Board BoardV2.Task) :
  i ≠ EmptyString →
  board_inv TaskMaster.columnId tm →
  TaskMaster.taskId p1 = Some i → tasks tm !! i = Some old1 →
  TaskMaster.columnId p1 = None ∨
    TaskMaster.columnId p1 = TaskMaster.columnId old1 →
  board_inv BoardV2.status v2 →
  BoardV2.taskId p2 = Some i → tasks v2 !! i = Some old2 →
  BoardV2.status p2 = None ∨ BoardV2.status p2 = BoardV2.status old2 →
  BoardV2.status old2 ≠ Some EmptyString →
  board_inv TaskMaster.columnId (TaskMaster.saveTask uuid nowU nowC nowT p1 tm) ∧
  board_inv BoardV2.status (BoardV2.saveTask uuid nowU nowC nowT p2 v2).
Proof.
  intros Hi I1 Hp1 H1 Hc1 I2 Hp2 H2 Hc2 Hs2. split.
  - rewrite (TaskMaster_saveTask_edit_result _ _ _ _ i p1 old1) by done.
    apply (board_inv_update _ i old1); [done | done |]. simpl.
    destruct Hc1 as [-> | ->]; by destruct (TaskMaster.columnId old1).
  - rewrite (BoardV2_saveTask_edit_result _ _ _ _ i p2 old2) by done.
    apply (board_inv_update _ i old2); [done | done |]. simpl.
    destruct (I2 i old2 H2) as [_ (c & l & Hst & _)]. rewrite Hst in *.
    assert (c ≠ EmptyString) by congruence.
    destruct Hc2 as [-> | ->]; simpl; by rewrite ?decide_False by done.
Qed.

Lemma saveTask_edit_keeps_invariant_witness :
  board_inv TaskMaster.columnId
    (TaskMaster.saveTask "u" "t1" "t1" "t1"
       (TaskMaster.mkTask (Some "B") (Some "renamed") None None None None
                          None None)
       Examples.tmTwoColumns).
Proof.
  refine (proj1 (saveTask_edit_keeps_invariant "u" "t1" "t1" "t1" "B"
            (TaskMaster.mkTask (Some "B") (Some "renamed") None None None None
                               None None)
            (Examples.tmCard "B" "done")
            (BoardV2.mkTask (Some "B") (Some "renamed") None None None None
                            None None None)
            (Examples.v2Card "B" "done")
            Examples.tmTwoColumns Examples.v2TwoColumns
            _ _ _ _ _ _ _ _ _ _));
    try done; try (by apply board_ok_spec; vm_compute); by left.
Defined.

(** ** The cards each column shows *)

Section CardsByColumn.
Context {T : Type} (shown : T → bool) (board : Board T).

Let inner (c : string) : Js.obj (list T) → string → Js.obj (list T) :=
  λ map id, match tasks board !! id with
            | Some t =>
                if shown t
                then Js.set c (Js.push t (default [] (Js.get c map))) map
                else map
            | None => map
            end.

Let visible (ids : list string) : list T :=
  filter (λ t, shown t = true) (omap (λ id, tasks board !! id) ids).

Lemma cards_inner c ids map L :
  Js.get c map = Some L →
  Js.get c (foldl (inner c) map ids) = Some (L ++ visible ids) ∧
  ∀ k, k ≠ c → Js.get k (foldl (inner c) map ids) = Js.get k map.
Proof.
  revert map L. induction ids as [|id ids IH]; intros map L HL; simpl.
  - unfold visible. simpl. by rewrite app_nil_r.
  - unfold inner at 2 4. unfold visible. simpl.
    destruct (tasks board !! id) as [t|] eqn:Ht; [|by apply IH].
    rewrite filter_cons.
    destruct (shown t) eqn:Hs.
    + rewrite decide_True by done.
      destruct (IH (Js.set c (Js.push t (default [] (Js.get c map))) map)
                   (L ++ [t])) as [H1 H2].
      { rewrite get_set_eq, HL. done. }
      split.
      * rewrite H1. unfold visible. by rewrite <- app_assoc.
      * intros k Hk. rewrite H2 by done. by apply get_set_ne.
    + rewrite decide_False by congruence. by apply IH.
Qed.

Lemma cards_init (cols : list Column) (acc : Js.obj (list T)) c :
  Js.get c (foldl (λ map col, Js.set (colId col) [] map) acc cols)
    = if bool_decide (c ∈ colId <$> cols) then Some [] else Js.get c acc.
Proof.
  revert acc. induction cols as [|col cols IH]; intros acc; simpl; [done |].
  rewrite IH, get_set.
  destruct (decide (colId col = c)) as [<-|Hne].
  - rewrite (bool_decide_eq_true_2 (colId col ∈ colId col :: _)) by left.
    by case_bool_decide.
  - assert (c ∈ colId col :: (colId <$> cols) ↔ c ∈ colId <$> cols) as Hiff
      by (rewrite elem_of_cons; intuition congruence).
    by rewrite (bool_decide_ext _ _ Hiff).
Qed.

Lemma cards_outer (cols : list Column) (map : Js.obj (list T)) :
  NoDup (colId <$> cols) →
  (∀ c, c ∈ colId <$> cols → Js.get c map = Some []) →
  ∀ c, Js.get c
         (foldl (λ map col,
                   foldl (inner (colId col)) map
                         (default [] (Js.get (colId col) (order board))))
                map cols)
       = if bool_decide (c ∈ colId <$> cols)
         then Some (visible (default [] (Js.get c (order board))))
         else Js.get c map.
Proof.
  revert map. induction cols as [|col cols IH]; intros map Hnd Hinit c;
    simpl; [done |].
  apply NoDup_cons in Hnd as [Hfresh Hnd].
  destruct (cards_inner (colId col)
              (default [] (Js.get (colId col) (order board))) map [])
    as [H1 H2]; [apply Hinit; left |].
  rewrite IH; [| done |].
  - destruct (decide (c = colId col)) as [->|Hc].
    + rewrite (bool_decide_eq_false_2 (colId col ∈ colId <$> cols)) by done.
      rewrite (bool_decide_eq_true_2 (colId col ∈ colId col :: _)) by left.
      by rewrite H1.
    + rewrite H2 by done.
      repeat case_bool_decide; try done; rewrite elem_of_cons in *; tauto.
  - intros k Hk. rewrite H2 by (intros ->; done).
    apply Hinit. by right.
Qed.

(** Per column, [cardsByColumn] holds the records of the listed ids, in
    list order, skipping ids without a record and records that are not to
    be shown; keys other than column ids are absent. *)
Lemma cardsByColumn_get c :
  NoDup (colId <$> columns board) →
  Js.get c (cardsByColumn shown board)
    = if bool_decide (c ∈ colId <$> columns board)
      then Some (visible (default [] (Js.get c (order board))))
      else None.
Proof.
  intros Hnd. unfold cardsByColumn.
  rewrite (cards_outer (columns board)); [| done |].
  - case_bool_decide as Hc; [done |].
    rewrite cards_init. by rewrite bool_decide_eq_false_2.
  - intros k Hk. rewrite cards_init. by rewrite bool_decide_eq_true_2.
Qed.
End CardsByColumn.

Lemma filter_all {A} (l : list A) : filter (λ _ : A, true = true) l = l.
Proof.
  induction l as [|x l IH]; [done |].
  rewrite filter_cons, decide_True by done. by rewrite IH.
Qed.

(** X13: what [tasksByColumn] renders in the modal and simplified
    editions, on a board whose column ids are distinct.  Under each
    column id it holds, in list order, the records of the ids listed in
    that column's order list; an id without a record is skipped, and
    nothing is rendered under a key that is not a column id. *)
Theorem tasksByColumn_renders_listed_records c
    (tm : Board TaskMaster.Task) (tdm : Board TaskDragMaster.Task) :
  NoDup (colId <$> columns tm) →
  NoDup (colId <$> columns tdm) →
  Js.get c (TaskMaster.tasksByColumn tm)
    = (if bool_decide (c ∈ colId <$> columns tm)
       then Some (omap (λ id, tasks tm !! id)
                       (default [] (Js.get c (order tm))))
       else None) ∧
  Js.get c (TaskDragMaster.tasksByColumn tdm)
    = (if bool_decide (c ∈ colId <$> columns tdm)
       then Some (omap (λ id, tasks tdm !! id)
                       (default [] (Js.get c (order tdm))))
       else None).
Proof.
  intros H1 H2. unfold TaskMaster.tasksByColumn, TaskDragMaster.tasksByColumn.
  rewrite !cardsByColumn_get by done. by rewrite !filter_all.
Qed.

Lemma tasksByColumn_renders_listed_records_witness :
  Js.get "done" (TaskMaster.tasksByColumn
                   (TaskMaster.deleteTask true "t1" "A" Examples.tmDrifted))
    = Some [].
Proof.
  refine (proj1 (tasksByColumn_renders_listed_records "done"
            (TaskMaster.deleteTask true "t1" "A" Examples.tmDrifted)
            Examples.tdmDrifted _ _));
    by apply (bool_decide_unpack _); vm_compute.
Defined.

Lemma filter_agree {A} (P Q : A → Prop) `{!∀ x, Decision (P x)}
    `{!∀ x, Decision (Q x)} (l : list A) :
  (∀ x, x ∈ l → (P x ↔ Q x)) → filter P l = filter Q l.
Proof.
  induction l as [|x l IH]; intros Hext; [done |].
  rewrite !filter_cons.
  assert (P x ↔ Q x) as Hx by (apply Hext; left).
  rewrite IH by (intros y Hy; apply Hext; by right).
  repeat case_decide; tauto || done.
Qed.

Section FilterFacts.
Variables trim toLowerCase : string → string.

(** A record of the board is among [filteredTasks] exactly when it
    passes the predicate. *)
Lemma filteredTasks_elem query filterTag id t (board : Board BoardV2.Task) :
  tasks board !! id = Some t →
  t ∈ BoardV2.filteredTasks trim toLowerCase query filterTag board ↔
  BoardV2.matches toLowerCase filterTag (toLowerCase (trim query)) t = true.
Proof.
  intros Ht. unfold BoardV2.filteredTasks. rewrite list_elem_of_filter.
  split; [tauto |]. intros H. split; [done |].
  apply list_elem_of_fmap. exists (id, t). split; [done |].
  by apply elem_of_map_to_list.
Qed.

(** X14: what [tasksByCol] renders in the calendar edition, on a board
    whose column ids are distinct.  Under a column id it holds the
    records of the listed ids that pass the search and tag filters, in
    list order.  With an empty tag filter and a query that trims to
    nothing it holds every listed record; with a tag filter set, every
    card it holds carries exactly that tag. *)
Theorem BoardV2_tasksByCol_filters query filterTag c
    (board : Board BoardV2.Task) :
  NoDup (colId <$> columns board) →
  c ∈ colId <$> columns board →
  let listed_records :=
    omap (λ id, tasks board !! id) (default [] (Js.get c (order board))) in
  let shown := BoardV2.tasksByCol trim toLowerCase query filterTag board in
  Js.get c shown
    = Some (filter (λ t, BoardV2.matches toLowerCase filterTag
                           (toLowerCase (trim query)) t = true)
                   listed_records) ∧
  (filterTag = EmptyString → toLowerCase (trim query) = EmptyString →
   Js.get c shown = Some listed_records) ∧
  (filterTag ≠ EmptyString →
   ∀ l t, Js.get c shown = Some l → t ∈ l → BoardV2.tag t = Some filterTag).
Proof.
  intros Hnd Hc listed_records shown.
  assert (Hget : Js.get c shown
    = Some (filter (λ t, BoardV2.matches toLowerCase filterTag
                           (toLowerCase (trim query)) t = true)
                   listed_records)).
  { unfold shown, BoardV2.tasksByCol. rewrite cardsByColumn_get by done.
    rewrite bool_decide_eq_true_2 by done. f_equal.
    apply filter_agree. intros t Ht.
    apply list_elem_of_omap in Ht as (id & _ & Hid).
    rewrite bool_decide_eq_true. by eapply filteredTasks_elem. }
  split_and!; [done | |].
  - intros -> Hq. rewrite Hget, Hq. f_equal.
    rewrite <- (filter_all listed_records) at 2.
    apply filter_agree. intros t _. by vm_compute.
  - intros Htag l t. rewrite Hget. intros [= <-].
    rewrite list_elem_of_filter. intros [Hm _].
    unfold BoardV2.matches in Hm. simpl in Hm.
    rewrite (bool_decide_eq_true_2 (filterTag ≠ EmptyString)) in Hm by done.
    simpl in Hm. by case_bool_decide as Ht.
Qed.
End FilterFacts.

Lemma BoardV2_tasksByCol_filters_witness :
  Js.get "done"
    (BoardV2.tasksByCol (λ s, s) (λ s, s) EmptyString EmptyString
                        Examples.v2TwoColumns)
    = Some (omap (λ id, tasks Examples.v2TwoColumns !! id)
                 (default [] (Js.get "done" (order Examples.v2TwoColumns)))).
Proof.
  refine (proj1 (proj2 (BoardV2_tasksByCol_filters (λ s, s) (λ s, s)
            EmptyString EmptyString "done" Examples.v2TwoColumns _ _)) _ _);
    try reflexivity.
  - by apply (bool_decide_unpack _); vm_compute.
  - by apply (bool_decide_unpack _); vm_compute.
Defined.

(** ** Saving through the form *)

Lemma option_union_Some_l {A} (x : A) (o : option A) : Some x ∪ o = Some x.
Proof. by destruct o. Qed.

(** X15: saving through the task form keeps the invariant, in the modal
    and calendar editions, whatever is typed into it.  A blank title
    changes nothing: the board is returned as it is.  A new card (no
    initial card, fresh id) is stored with the typed fields under column
    todo and its id goes to the head of the todo order list.  An edit of
    a card of the board (opened with its own record, whose column field
    is not empty) leaves [order] alone, keeps the card's column and
    replaces only that card's record. *)
Theorem form_save_keeps_invariant (trim toISOString : string → string)
    uuid nowU nowC nowT title description priority due tag
    (initial1 : option TaskMaster.Task) (initial2 : option BoardV2.Task)
    (tm : Board TaskMaster.Task) (v2 : Board BoardV2.Task) :
  board_inv TaskMaster.columnId tm →
  tasks tm !! uuid = None → occurrences uuid (order tm) = 0 →
  (∀ old, initial1 = Some old →
     ∃ i, i ≠ EmptyString ∧ TaskMaster.taskId old = Some i ∧
          tasks tm !! i = Some old ∧
          TaskMaster.columnId old ≠ Some EmptyString) →
  board_inv BoardV2.status v2 →
  tasks v2 !! uuid = None → occurrences uuid (order v2) = 0 →
  (∀ old, initial2 = Some old →
     ∃ i, i ≠ EmptyString ∧ BoardV2.taskId old = Some i ∧
          tasks v2 !! i = Some old ∧
          BoardV2.status old ≠ Some EmptyString) →
  (let tm' := TaskMaster.submitAndSave trim toISOString uuid nowU nowC nowT
                initial1 title description priority due tm in
   board_inv TaskMaster.columnId tm' ∧
   (is_Some initial1 → order tm' = order tm) ∧
   (trim title = EmptyString → tm' = tm) ∧
   (trim title ≠ EmptyString → initial1 = None →
    tm' = withState tm
            (<[uuid := TaskMaster.mkTask (Some uuid) (Some (trim title))
                         (Some (trim description)) (Some priority)
                         (Some (if decide (due = EmptyString) then EmptyString
                                else toISOString due))
                         (Some nowC) (Some nowU) (Some "todo")]> (tasks tm))
            (Js.set "todo" (uuid :: default [] (Js.get "todo" (order tm)))
                    (order tm))
            nowT) ∧
   (∀ old i, trim title ≠ EmptyString → initial1 = Some old →
      TaskMaster.taskId old = Some i →
      tm' = withState tm
              (<[i := TaskMaster.mkTask (Some i) (Some (trim title))
                        (Some (trim description)) (Some priority)
                        (Some (if decide (due = EmptyString) then EmptyString
                               else toISOString due))
                        (Some (Js.or_else (TaskMaster.createdAt old) nowC))
                        (Some nowU) (TaskMaster.columnId old)]> (tasks tm))
              (order tm) nowT)) ∧
  (let v2' := BoardV2.submitAndSave trim toISOString uuid nowU nowC nowT
                initial2 title description priority due tag v2 in
   board_inv BoardV2.status v2' ∧
   (is_Some initial2 → order v2' = order v2) ∧
   (trim title = EmptyString → v2' = v2) ∧
   (trim title ≠ EmptyString → initial2 = None →
    v2' = withState v2
            (<[uuid := BoardV2.mkTask (Some uuid) (Some (trim title))
                         (Some (trim description)) (Some priority)
                         (Some (if decide (due = EmptyString) then EmptyString
                                else toISOString due))
                         (Some (trim tag)) (Some "todo")
                         (Some nowC) (Some nowU)]> (tasks v2))
            (Js.set "todo" (uuid :: default [] (Js.get "todo" (order v2)))
                    (order v2))
            nowT) ∧
   (∀ old i, trim title ≠ EmptyString → initial2 = Some old →
      BoardV2.taskId old = Some i →
      v2' = withState v2
              (<[i := BoardV2.mkTask (Some i) (Some (trim title))
                        (Some (trim description)) (Some priority)
                        (Some (if decide (due = EmptyString) then EmptyString
                               else toISOString due))
                        (Some (trim tag)) (BoardV2.status old)
                        (Some (Js.or_else (BoardV2.createdAt old) nowC))
                        (Some nowU)]> (tasks v2))
              (order v2) nowT)).
Proof.
  intros I1 N1 O1 E1 I2 N2 O2 E2.
  (* the three outcomes in the modal edition *)
  assert (B1 : trim title = EmptyString →
    TaskMaster.submitAndSave trim toISOString uuid nowU nowC nowT
      initial1 title description priority due tm = tm).
  { intros Hb. unfold TaskMaster.submitAndSave, TaskMaster.submit.
    by rewrite decide_True. }
  assert (C1 : trim title ≠ EmptyString → initial1 = None →
    TaskMaster.submitAndSave trim toISOString uuid nowU nowC nowT
      initial1 title description priority due tm
    = withState tm
        (<[uuid := TaskMaster.mkTask (Some uuid) (Some (trim title))
                     (Some (trim description)) (Some priority)
                     (Some (if decide (due = EmptyString) then EmptyString
                            else toISOString due))
                     (Some nowC) (Some nowU) (Some "todo")]> (tasks tm))
        (Js.set "todo" (uuid :: default [] (Js.get "todo" (order tm)))
                (order tm))
        nowT).
  { intros Hb ->. unfold TaskMaster.submitAndSave, TaskMaster.submit.
    rewrite decide_False by done.
    unfold TaskMaster.saveTask. simpl. by rewrite N1. }
  assert (D1 : ∀ old i, trim title ≠ EmptyString → initial1 = Some old →
    TaskMaster.taskId old = Some i →
    TaskMaster.submitAndSave trim toISOString uuid nowU nowC nowT
      initial1 title description priority due tm
    = withState tm
        (<[i := TaskMaster.mkTask (Some i) (Some (trim title))
                  (Some (trim description)) (Some priority)
                  (Some (if decide (due = EmptyString) then EmptyString
                         else toISOString due))
                  (Some (Js.or_else (TaskMaster.createdAt old) nowC))
                  (Some nowU) (TaskMaster.columnId old)]> (tasks tm))
        (order tm) nowT).
  { intros old i Hb -> Hid.
    destruct (E1 old eq_refl) as (i' & Hi & Hid' & Hold & Hcol).
    assert (i' = i) as -> by congruence.
    destruct (I1 i old Hold) as [_ (c & l & Hc & _)].
    unfold TaskMaster.submitAndSave, TaskMaster.submit.
    rewrite decide_False by done.
    erewrite (TaskMaster_saveTask_edit_result _ _ _ _ i _ old);
      [| done | simpl; rewrite Hid; simpl;
                by rewrite bool_decide_eq_true_2 | done].
    simpl. rewrite !option_union_Some_l.
    rewrite Hc. simpl.
    by rewrite (decide_False (P := c = EmptyString)) by congruence. }
  (* and in the calendar edition *)
  assert (B2 : trim title = EmptyString →
    BoardV2.submitAndSave trim toISOString uuid nowU nowC nowT
      initial2 title description priority due tag v2 = v2).
  { intros Hb. unfold BoardV2.submitAndSave, BoardV2.submit.
    by rewrite decide_True. }
  assert (C2 : trim title ≠ EmptyString → initial2 = None →
    BoardV2.submitAndSave trim toISOString uuid nowU nowC nowT
      initial2 title description priority due tag v2
    = withState v2
        (<[uuid := BoardV2.mkTask (Some uuid) (Some (trim title))
                     (Some (trim description)) (Some priority)
                     (Some (if decide (due = EmptyString) then EmptyString
                            else toISOString due))
                     (Some (trim tag)) (Some "todo")
                     (Some nowC) (Some nowU)]> (tasks v2))
        (Js.set "todo" (uuid :: default [] (Js.get "todo" (order v2)))
                (order v2))
        nowT).
  { intros Hb ->. unfold BoardV2.submitAndSave, BoardV2.submit.
    rewrite decide_False by done.
    unfold BoardV2.saveTask. simpl. by rewrite N2. }
  assert (D2 : ∀ old i, trim title ≠ EmptyString → initial2 = Some old →
    BoardV2.taskId old = Some i →
    BoardV2.submitAndSave trim toISOString uuid nowU nowC nowT
      initial2 title description priority due tag v2
    = withState v2
        (<[i := BoardV2.mkTask (Some i) (Some (trim title))
                  (Some (trim description)) (Some priority)
                  (Some (if decide (due = EmptyString) then EmptyString
                         else toISOString due))
                  (Some (trim tag)) (BoardV2.status old)
                  (Some (Js.or_else (BoardV2.createdAt old) nowC))
                  (Some nowU)]> (tasks v2))
        (order v2) nowT).
  { intros old i Hb -> Hid.
    destruct (E2 old eq_refl) as (i' & Hi & Hid' & Hold & Hcol).
    assert (i' = i) as -> by congruence.
    destruct (I2 i old Hold) as [_ (c & l & Hc & _)].
    unfold BoardV2.submitAndSave, BoardV2.submit.
    rewrite decide_False by done.
    erewrite (BoardV2_saveTask_edit_result _ _ _ _ i _ old);
      [| done | simpl; by rewrite Hid | done].
    simpl. rewrite !option_union_Some_l.
    assert (Hne : c ≠ EmptyString) by congruence.
    assert (Hor : Js.or_else (BoardV2.status old) "todo" = c)
      by (rewrite Hc; simpl; by rewrite decide_False).
    rewrite Hor, Hc. simpl.
    by rewrite (decide_False (P := c = EmptyString)). }
  split; simpl.
  - split_and!; [| | done | done | done].
    + destruct (decide (trim title = EmptyString)) as [Hb|Hb];
        [by rewrite B1 |].
      destruct initial1 as [old|].
      * destruct (E1 old eq_refl) as (i & Hi & Hid & Hold & Hcol).
        rewrite (D1 old i) by done.
        by apply (board_inv_update _ i old).
      * rewrite C1 by done. by apply board_inv_prepend.
    + intros [old ->].
      destruct (decide (trim title = EmptyString)) as [Hb|Hb];
        [by rewrite B1 |].
      destruct (E1 old eq_refl) as (i & Hi & Hid & Hold & Hcol).
      by rewrite (D1 old i).
  - split_and!; [| | done | done | done].
    + destruct (decide (trim title = EmptyString)) as [Hb|Hb];
        [by rewrite B2 |].
      destruct initial2 as [old|].
      * destruct (E2 old eq_refl) as (i & Hi & Hid & Hold & Hcol).
        rewrite (D2 old i) by done.
        by apply (board_inv_update _ i old).
      * rewrite C2 by done. by apply board_inv_prepend.
    + intros [old ->].
      destruct (decide (trim title = EmptyString)) as [Hb|Hb];
        [by rewrite B2 |].
      destruct (E2 old eq_refl) as (i & Hi & Hid & Hold & Hcol).
      by rewrite (D2 old i).
Qed.

Lemma form_save_keeps_invariant_witness :
  board_inv BoardV2.status
    (BoardV2.submitAndSave (λ s, s) (λ s, s) "u" "t1" "t1" "t1"
       (Some (Examples.v2Card "B" "done")) "renamed" "text" "high"
       EmptyString "home" Examples.v2TwoColumns).
Proof.
  refine (proj1 (proj2 (form_save_keeps_invariant (λ s, s) (λ s, s)
            "u" "t1" "t1" "t1" "renamed" "text" "high" EmptyString "home"
            (Some (Examples.tmCard "B" "done"))
            (Some (Examples.v2Card "B" "done"))
            Examples.tmTwoColumns Examples.v2TwoColumns
            _ _ _ _ _ _ _ _)));
    try reflexivity; try (by apply board_ok_spec; vm_compute).
  - intros old [= <-]. exists "B". by split_and!.
  - intros old [= <-]. exists "B". by split_and!.
Defined.

(** ** Create then delete *)

(** X16: deleting a card right after creating it undoes the creation, in
    the modal and calendar editions: [tasks] is as before and so is every
    order list (only [ts] differs).  The id drawn must be new to the
    board; in the modal edition the request asks for todo, which has an
    order list. *)
Theorem create_then_delete_restores uuid nowU nowC nowT now
    (p1 : TaskMaster.Task) (p2 : BoardV2.Task) l
    (tm : Board TaskMaster.Task) (v2 : Board BoardV2.Task) :
  TaskMaster.taskId p1 = None → TaskMaster.columnId p1 = Some "todo" →
  tasks tm !! uuid = None →
  Js.get "todo" (order tm) = Some l → uuid ∉ l →
  BoardV2.taskId p2 = None →
  tasks v2 !! uuid = None →
  (∀ c m, Js.get c (order v2) = Some m → uuid ∉ m) →
  is_Some (Js.get "todo" (order v2)) →
  (let tm' := TaskMaster.deleteTask true now uuid
                (TaskMaster.saveTask uuid nowU nowC nowT p1 tm) in
   tasks tm' = tasks tm ∧ order tm' = order tm) ∧
  (let v2' := BoardV2.deleteTask true now uuid
                (BoardV2.saveTask uuid nowU nowC nowT p2 v2) in
   tasks v2' = tasks v2 ∧
   ∀ c, Js.get c (order v2') = Js.get c (order v2)).
Proof.
  intros Hid1 Hc1 N1 Hl Hout Hid2 N2 Hout2 [l2 Hl2]. split; simpl.
  - unfold TaskMaster.saveTask. rewrite Hid1. simpl. rewrite N1. simpl.
    unfold TaskMaster.deleteTask. simpl. rewrite lookup_insert_eq. simpl.
    rewrite Hc1. simpl. rewrite get_set_eq, Hl. simpl.
    split.
    + rewrite delete_insert_eq. by apply delete_id.
    + rewrite set_set. unfold Js.without. rewrite filter_cons.
      rewrite decide_False by (intros H; by apply H).
      fold (Js.without uuid l). rewrite without_absent by done.
      by apply set_same.
  - unfold BoardV2.saveTask. rewrite Hid2. simpl. rewrite N2. simpl.
    unfold BoardV2.deleteTask. simpl. rewrite lookup_insert_eq. simpl.
    split.
    + rewrite delete_insert_eq. by apply delete_id.
    + intros c. rewrite get_filterAll, get_set, Hl2. simpl.
      case_decide as Hc.
      * subst c. rewrite Hl2. simpl. f_equal.
        unfold Js.without. rewrite filter_cons.
        rewrite decide_False by (intros H; by apply H).
        fold (Js.without uuid l2). apply without_absent. by eapply Hout2.
      * destruct (Js.get c (order v2)) as [m|] eqn:Hm; [|done]. simpl.
        f_equal. apply without_absent. by eapply Hout2.
Qed.

Lemma create_then_delete_restores_witness :
  order (TaskMaster.deleteTask true "t2" "u"
           (TaskMaster.saveTask "u" "t1" "t1" "t1" Examples.tmNew
                                Examples.tmTwoColumns))
    = order Examples.tmTwoColumns.
Proof.
  refine (proj2 (proj1 (create_then_delete_restores "u" "t1" "t1" "t1" "t2"
            Examples.tmNew Examples.v2New ["A"]
            Examples.tmTwoColumns Examples.v2TwoColumns
            _ _ _ _ _ _ _ _ _)));
    try reflexivity.
  - apply not_elem_of_cons. split; [done | apply not_elem_of_nil].
  - intros c m H. vm_compute in H.
    repeat (case_match; simplify_eq);
      repeat (apply not_elem_of_cons; split; [done |]); apply not_elem_of_nil.
  - eexists. reflexivity.
Defined.

(** ** Startup, continued *)

(** X17: the whole of the startup decision.  An entry that is the empty
    string, and a payload that parses to a falsy value, start from the
    empty board like a missing entry; any payload that parses to a truthy
    value is taken as the board as it is, whatever its shape. *)
Theorem startup_takes_any_truthy_payload
    (JSValue B : Type) (JSON_parse : string → option JSValue)
    (truthy : JSValue → bool) (empty : B) (raw : string) (v : JSValue) :
  raw ≠ EmptyString →
  JSON_parse raw = Some v →
  initialBoard JSValue JSON_parse truthy empty (Some raw)
    = (if truthy v then Stored v else Fresh empty) ∧
  initialBoard JSValue JSON_parse truthy empty (Some EmptyString)
    = Fresh empty.
Proof.
  intros Hraw Hv. unfold initialBoard, loadStore.
  rewrite decide_False by done. rewrite Hv.
  by rewrite decide_True by done.
Qed.

Lemma startup_takes_any_truthy_payload_witness :
  initialBoard unit (λ _, Some ()) (λ _, true) (BoardV2.emptyBoard "t0")
               (Some "[]")
    = Stored ().
Proof.
  refine (proj1 (startup_takes_any_truthy_payload unit _ (λ _, Some ())
            (λ _, true) (BoardV2.emptyBoard "t0") "[]" () _ _)); done.
Defined.

(** ** Dropping a card on its own column *)

(** X18: in all three editions, dropping a card on the container of the
    column it is already in appends the card to that column's list
    without taking the old entry out: the list afterwards is the old list
    followed by the card. *)
Theorem drop_on_own_column_appends nowU nowT a c l1 l2 l3 t1 t2
    (tm : Board TaskMaster.Task) (tdm : Board TaskDragMaster.Task)
    (v2 : Board BoardV2.Task) :
  tasks tm !! a = Some t1 → TaskMaster.columnId t1 = Some c →
  Js.get c (order tm) = Some l1 → tasks tm !! c = None →
  tasks tdm !! a = Some t2 → TaskDragMaster.columnId t2 = Some c →
  Js.get c (order tdm) = Some l2 → c ∉ l2 →
  BoardV2.sourceColumn a (order v2) = Some c →
  Js.get c (order v2) = Some l3 → tasks v2 !! c = None →
  Js.get c (order (TaskMaster.handleDragEnd nowU nowT a (Some c) tm))
    = Some (l1 ++ [a]) ∧
  Js.get c (order (TaskDragMaster.handleDragEnd nowU nowT a (Some c) tdm))
    = Some (l2 ++ [a]) ∧
  Js.get c (order (BoardV2.handleDragEnd nowU nowT a (Some c) v2))
    = Some (l3 ++ [a]).
Proof.
  intros Ha1 Hc1 Hl1 Hn1 Ha2 Hc2 Hl2 Hn2 Hs3 Hl3 Hn3. split_and!.
  - unfold TaskMaster.handleDragEnd, TaskMaster.toColumn.
    rewrite Ha1, Hl1, Hn1. simpl. rewrite Hl1. simpl.
    by rewrite get_set_eq.
  - unfold TaskDragMaster.handleDragEnd.
    rewrite Ha2, Hl2. simpl. rewrite Hl2. simpl.
    rewrite get_set_eq.
    by rewrite (proj1 (indexOf_absent c l2)), decide_True by done.
  - unfold BoardV2.handleDragEnd, BoardV2.destColumn.
    rewrite Hs3, Hl3, Hn3. simpl. rewrite Hl3. simpl.
    rewrite andb_false_r. by rewrite get_set_eq.
Qed.

Lemma drop_on_own_column_appends_witness :
  Js.get "todo"
    (order (BoardV2.handleDragEnd "t1" "t2" "A" (Some "todo")
              Examples.v2TwoColumns)) = Some (["A"] ++ ["A"]).
Proof.
  refine (proj2 (proj2 (drop_on_own_column_appends "t1" "t2" "A" "todo"
            ["A"] ["A"] ["A"] (Examples.tmCard "A" "todo")
            (Examples.tdmCard "A" "todo")
            Examples.tmTwoColumns Examples.tdmTwoColumns Examples.v2TwoColumns
            _ _ _ _ _ _ _ _ _ _ _)));
    try reflexivity.
  apply not_elem_of_cons. split; [done | apply not_elem_of_nil].
Defined.

(** ** The calendar tile *)

(** X19: the calendar tile of a day in the calendar edition.  It is empty
    exactly when no record is due that day; otherwise it lists at most
    three cards, each a record of the board with a due date starting with
    that day, and the "+N more" count is present exactly when more than
    three are due, so that listed cards and N add up to all cards due. *)
Theorem BoardV2_tileContent_bounds day (board : Board BoardV2.Task) :
  let dueThatDay :=
    filter (λ t, Js.truthy (BoardV2.due t) = true ∧
                 String.prefix day (Js.or_else (BoardV2.due t) EmptyString)
                   = true)
           (map_to_list (tasks board)).*2 in
  (BoardV2.tileContent day board = None ↔ dueThatDay = []) ∧
  ∀ shown more, BoardV2.tileContent day board = Some (shown, more) →
    length shown ≤ 3 ∧
    length shown + default 0 more = length dueThatDay ∧
    (is_Some more ↔ 3 < length dueThatDay) ∧
    ∀ t, t ∈ shown →
      (∃ id, tasks board !! id = Some t) ∧
      ∃ d, BoardV2.due t = Some d ∧ d ≠ EmptyString ∧
           String.prefix day d = true.
Proof.
  intros dueThatDay. unfold BoardV2.tileContent. fold dueThatDay. split.
  - case_decide as Hn; [|split; [done | intros E; by rewrite E in Hn]].
    split; [intros _ | done]. by apply nil_length_inv.
  - intros shown more. case_decide as Hn; [done |]. intros [= <- <-].
    rewrite length_take. split_and!.
    + lia.
    + case_decide; cbn [default from_option id]; lia.
    + case_decide as H3;
        [split; [done | by eexists] | split; [by intros [? ?] | lia]].
    + intros t (i & Hi & _)%elem_of_take.
      assert (Ht : t ∈ dueThatDay) by (apply list_elem_of_lookup; eauto).
      unfold dueThatDay in Ht.
      apply list_elem_of_filter in Ht as [[Hd Hp] Hin].
      split.
      * apply list_elem_of_fmap in Hin as ([id t'] & -> & Hin).
        exists id. by apply elem_of_map_to_list.
      * destruct (BoardV2.due t) as [d|]; [|done]. exists d.
        simpl in *. apply bool_decide_eq_true in Hd.
        rewrite decide_False in Hp by done. done.
Qed.

(** ** Column drops in the modal and simplified editions *)

Section MoveAny.
Context {T : Type} (col : T → option string).

(** [board_inv_move] for any shape of record. *)
Lemma board_inv_move_any (b : Board T) a ta t' cs cd ls ld destOrder now :
  board_inv col b →
  tasks b !! a = Some ta →
  Js.get cs (order b) = Some ls → a ∈ ls →
  Js.get cd (order b) = Some ld →
  col t' = Some cd → cs ≠ cd →
  (∀ x, listed x destOrder = listed x ld + (if decide (a = x) then 1 else 0)) →
  board_inv col
    (withState b (<[a := t']> (tasks b))
       (Js.set cd destOrder (Js.set cs (Js.without a ls) (order b))) now).
Proof.
  intros Hinv Ha Hls Hin Hld Hcol Hcd Hdest x t Hx. simpl in *.
  pose proof (occurrences_set x cd destOrder
                (Js.set cs (Js.without a ls) (order b))) as E2.
  pose proof (occurrences_set x cs (Js.without a ls) (order b)) as E1.
  rewrite Hls in E1. simpl in E1.
  rewrite get_set_ne, Hld in E2 by done. simpl in E2.
  specialize (Hdest x).
  destruct (decide (x = a)) as [->|Hne].
  - rewrite lookup_insert_eq in Hx. injection Hx as <-.
    destruct (Hinv a ta Ha) as [Hocc _].
    rewrite listed_without_eq in E1.
    assert (1 ≤ listed a ls) by (by apply listed_elem_of).
    rewrite (decide_True (P := a = a)) in Hdest by done.
    split; [lia |].
    exists cd, destOrder. split_and!; [done | apply get_set_eq |].
    apply listed_elem_of. lia.
  - rewrite lookup_insert_ne in Hx by done.
    destruct (Hinv x t Hx) as [Hocc (c & l & Hc & Hl & Hxl)].
    rewrite listed_without_ne in E1 by done.
    rewrite (decide_False (P := a = x)) in Hdest by done.
    apply listed_elem_of in Hxl.
    split; [lia |].
    exists c. rewrite !get_set.
    destruct (decide (cd = c)) as [->|Hcdc].
    + exists destOrder. split_and!; [done | done |].
      apply listed_elem_of. simplify_eq. lia.
    + destruct (decide (cs = c)) as [->|Hcs]; simplify_eq.
      * eexists. split_and!; [done | done |].
        apply listed_elem_of. rewrite listed_without_ne by done. lia.
      * exists l. split_and!; [done | done |]. by apply listed_elem_of.
Qed.
End MoveAny.

Lemma listed_le_occurrences x c l (o : Js.obj (list string)) :
  Js.get c o = Some l → listed x l ≤ occurrences x o.
Proof.
  intros Hl. pose proof (occurrences_set x c [] o) as E.
  rewrite Hl in E. simpl in E. unfold listed at 2 in E. simpl in E. lia.
Qed.

(** X20: in the modal and simplified editions, where the columns are the
    drop targets, dropping a card of a board that satisfies the invariant
    on the container of a column other than its own gives a board that
    satisfies the invariant again. *)
Theorem column_drop_keeps_invariant nowU nowT a overId t1 t2 ld1 ld2
    (tm : Board TaskMaster.Task) (tdm : Board TaskDragMaster.Task) :
  board_inv TaskMaster.columnId tm →
  tasks tm !! a = Some t1 →
  Js.get overId (order tm) = Some ld1 →
  tasks tm !! overId = None →
  TaskMaster.columnId t1 ≠ Some overId →
  board_inv TaskDragMaster.columnId tdm →
  tasks tdm !! a = Some t2 →
  Js.get overId (order tdm) = Some ld2 →
  overId ∉ ld2 →
  TaskDragMaster.columnId t2 ≠ Some overId →
  board_inv TaskMaster.columnId
    (TaskMaster.handleDragEnd nowU nowT a (Some overId) tm) ∧
  board_inv TaskDragMaster.columnId
    (TaskDragMaster.handleDragEnd nowU nowT a (Some overId) tdm).
Proof.
  intros I1 A1 L1 N1 C1 I2 A2 L2 N2 C2. split.
  - destruct (I1 a t1 A1) as [Hocc (cs & ls & Hcs & Hls & Hin)].
    unfold TaskMaster.handleDragEnd, TaskMaster.toColumn.
    rewrite A1, L1, N1. simpl. rewrite Hcs. simpl. rewrite Hls, L1. simpl.
    apply (board_inv_move_any _ tm a t1 _ cs overId ls ld1); try done.
    + congruence.
    + intros x. apply listed_push.
  - destruct (I2 a t2 A2) as [Hocc (cs & ls & Hcs & Hls & Hin)].
    unfold TaskDragMaster.handleDragEnd.
    rewrite A2, L2. simpl. rewrite Hcs. simpl. rewrite Hls, L2. simpl.
    rewrite (proj1 (indexOf_absent overId ld2)), decide_True by done.
    rewrite remove_first_without
      by (rewrite <- Hocc; by eapply listed_le_occurrences).
    apply (board_inv_move_any _ tdm a t2 _ cs overId ls ld2); try done.
    + congruence.
    + intros x. apply listed_push.
Qed.

Lemma column_drop_keeps_invariant_witness :
  board_inv TaskMaster.columnId
    (TaskMaster.handleDragEnd "t1" "t2" "A" (Some "inprogress")
                              Examples.tmTwoColumns).
Proof.
  refine (proj1 (column_drop_keeps_invariant "t1" "t2" "A" "inprogress"
            (Examples.tmCard "A" "todo") (Examples.tdmCard "A" "todo") [] []
            Examples.tmTwoColumns Examples.tdmTwoColumns
            _ _ _ _ _ _ _ _ _ _));
    try reflexivity; try done; try (by apply board_ok_spec; vm_compute).
  apply not_elem_of_nil.
Defined.
